(** * zaqar/transport/websocket/protocol.py

    A shallow embedding of the two protocol classes of the websocket
    transport: [MessagingProtocol], the per-connection session engine, and
    [NotificationProtocol], the incremental parser of pushed notifications.

    The module imports on two kinds of interpreter, and its [try]/[except
    ImportError] around [import mimetools] binds [Message] differently on
    each: both bindings are embedded ([Py.Interpreter]).  Python objects
    are mutable and methods may raise: methods are written in a state monad
    whose outcome is either a normal return or a raised exception, both
    carrying the state reached so far. *)

From Stdlib Require Import List Bool Arith ZArith Lia String Ascii.
From Stdlib Require Import Strings.Byte DecimalString.
Import ListNotations.

Set Implicit Arguments.

(** ** The Python runtime the module relies on *)

Module Py.

(** 8-bit strings: [bytes] and [bytearray], and [str] where it is the 8-bit
    string type. *)
Definition bytes := list byte.

Definition b (s : string) : bytes := list_byte_of_string s.

Definition CR : byte := x0d.
Definition LF : byte := x0a.
Definition CRLF : bytes := [CR; LF].
Definition CRLFCRLF : bytes := [CR; LF; CR; LF].

Fixpoint bytes_eqb (x y : bytes) : bool :=
  match x, y with
  | [], [] => true
  | c :: x', d :: y' => Byte.eqb c d && bytes_eqb x' y'
  | _, _ => false
  end.

(** [s.startswith(p)] *)
Fixpoint startswith (p s : bytes) : bool :=
  match p, s with
  | [], _ => true
  | c :: p', d :: s' => Byte.eqb c d && startswith p' s'
  | _ :: _, [] => false
  end.

(** [sep in s] *)
Fixpoint bytes_in (sep s : bytes) : bool :=
  startswith sep s ||
  match s with
  | [] => false
  | _ :: s' => bytes_in sep s'
  end.

(** The cut of [s] at the leftmost occurrence of [sep]. *)
Fixpoint partition (sep s : bytes) : option (bytes * bytes) :=
  if startswith sep s then Some ([], skipn (List.length sep) s)
  else match s with
       | [] => None
       | c :: s' =>
           match partition sep s' with
           | Some (l, r) => Some (c :: l, r)
           | None => None
           end
       end.

(** [s.split(sep, 1)] for a non-empty [sep]: one cut at most. *)
Definition split1 (sep s : bytes) : list bytes :=
  match partition sep s with
  | Some (l, r) => [l; r]
  | None => [s]
  end.

(** ASCII whitespace, as [split()] and [strip()] without arguments see it:
    space, tab, line feed, carriage return, vertical tab, form feed. *)
Definition isspace (c : byte) : bool :=
  match c with
  | x20 | x09 | x0a | x0d | x0b | x0c => true
  | _ => false
  end.

(** [s.split()]: maximal runs of non-whitespace bytes. *)
Fixpoint split_ws_aux (cur : bytes) (s : bytes) : list bytes :=
  match s with
  | [] => match cur with [] => [] | _ => [rev cur] end
  | c :: s' =>
      if isspace c
      then match cur with
           | [] => split_ws_aux [] s'
           | _ => rev cur :: split_ws_aux [] s'
           end
      else split_ws_aux (c :: cur) s'
  end.

Definition split_ws (s : bytes) : list bytes := split_ws_aux [] s.

Fixpoint lstrip (s : bytes) : bytes :=
  match s with
  | c :: s' => if isspace c then lstrip s' else s
  | [] => []
  end.

(** [s.strip()] *)
Definition strip (s : bytes) : bytes := rev (lstrip (rev (lstrip s))).

(** [s.lower()] and [s.upper()] on 8-bit strings: only A-Z and a-z move. *)
Definition lower_byte (c : byte) : byte :=
  let n := Byte.to_N c in
  if (65 <=? n)%N && (n <=? 90)%N
  then match Byte.of_N (n + 32) with Some d => d | None => c end
  else c.

Definition upper_byte (c : byte) : byte :=
  let n := Byte.to_N c in
  if (97 <=? n)%N && (n <=? 122)%N
  then match Byte.of_N (n - 32) with Some d => d | None => c end
  else c.

Definition lower (s : bytes) : bytes := map lower_byte s.
Definition upper (s : bytes) : bytes := map upper_byte s.

(** [s.replace(x, y)] for single bytes [x] and [y]. *)
Definition replace_byte (x y : byte) (s : bytes) : bytes :=
  map (fun c => if Byte.eqb c x then y else c) s.

(** [s.find(c)] for a single byte: [None] stands for -1. *)
Fixpoint find_byte (c : byte) (s : bytes) : option nat :=
  match s with
  | [] => None
  | d :: s' => if Byte.eqb d c then Some 0
               else option_map S (find_byte c s')
  end.

Definition digit_val (c : byte) : option Z :=
  let n := Byte.to_N c in
  if (48 <=? n)%N && (n <=? 57)%N then Some (Z.of_N n - 48)%Z else None.

Fixpoint digits_val (acc : Z) (s : bytes) : option Z :=
  match s with
  | [] => Some acc
  | c :: s' =>
      match digit_val c with
      | Some d => digits_val (10 * acc + d)%Z s'
      | None => None
      end
  end.

(** [int(s)] in base ten on an 8-bit string: surrounding whitespace is
    dropped, one sign is allowed, at least one digit is required.  [None]
    is [ValueError].  Every interpreter reads these literals, and reads
    them so; on text some read more (see [Messaging.int_beyond]). *)
Definition int (s : bytes) : option Z :=
  match strip s with
  | [] => None
  | c :: rest =>
      if Byte.eqb c x2d (* - *) then
        match rest with
        | [] => None
        | _ => option_map Z.opp (digits_val 0%Z rest)
        end
      else if Byte.eqb c x2b (* + *) then
        match rest with
        | [] => None
        | _ => digits_val 0%Z rest
        end
      else digits_val 0%Z (c :: rest)
  end.

(** Exceptions the module can meet.  [ValueError] stands for the class and
    its subclasses, which [except ValueError] catches alike;
    [RecursionError] for what the interpreter raises when its stack is
    exhausted, which is not a [ValueError]. *)
Inductive exn : Type :=
| ValueError
| TypeError
| AttributeError
| KeyError
| IndexError
| RecursionError.

Definition is_ValueError (e : exn) : bool :=
  match e with
  | ValueError => true
  | _ => false
  end.

(** The interpreter the module is imported on.  Two things depend on it in
    the notification parser: whether [import mimetools] succeeds (the
    module exists up to Python 2 only), and what [str] of a [bytearray]
    is: the same bytes where [str] is the 8-bit string type, the text of
    its [repr] where [str] is text.  That text is a function of the bytes
    which is not looked into. *)
Inductive Interpreter : Type :=
| Python2
| Python3 (repr : bytes -> bytes).

Existing Class Interpreter.

(** How a call ends: it returns, or it raises; the object keeps whatever
    was assigned before the raise. *)
Inductive outcome (S A : Type) : Type :=
| Returned (a : A) (s : S)
| Raised (e : exn) (s : S).

Arguments Returned {S A} a s.
Arguments Raised {S A} e s.

Definition M (S A : Type) : Type := S -> outcome S A.

Definition ret {S A} (a : A) : M S A := fun s => Returned a s.

Definition bind {S A B} (m : M S A) (k : A -> M S B) : M S B :=
  fun s => match m s with
           | Returned a s' => k a s'
           | Raised e s' => Raised e s'
           end.

Definition raise {S A} (e : exn) : M S A := fun s => Raised e s.
Definition get {S} : M S S := fun s => Returned s s.
Definition put {S} (s : S) : M S unit := fun _ => Returned tt s.
Definition modify {S} (f : S -> S) : M S unit := fun s => Returned tt (f s).

Definition final_state {S A} (o : outcome S A) : S :=
  match o with
  | Returned _ s => s
  | Raised _ s => s
  end.

End Py.

Declare Scope py_scope.
Delimit Scope py_scope with py.
Notation "x <- m ;; k" := (Py.bind m (fun x => k))
  (at level 61, m at next level, right associativity) : py_scope.
Notation "m ;; k" := (Py.bind m (fun _ => k))
  (at level 61, right associativity) : py_scope.

Import Py.
Local Open Scope py_scope.

(** ** [mimetools.Message]: the header reader behind [Message(fp)] where
    [import mimetools] succeeds

    [rfc822.Message.readheaders] reads [fp] line by line into a dictionary
    keyed by the lower-cased header name; [get(name)] looks [name.lower()]
    up in it.  Lines are what [readline] returns: each ends with its line
    feed, except possibly the last one. *)

Module Mimetools.

Fixpoint readlines_aux (cur s : bytes) : list bytes :=
  match s with
  | [] => match cur with [] => [] | _ => [rev cur] end
  | c :: s' =>
      if Byte.eqb c LF then rev (c :: cur) :: readlines_aux [] s'
      else readlines_aux (c :: cur) s'
  end.

Definition readlines (s : bytes) : list bytes := readlines_aux [] s.

Definition dict := list (bytes * bytes).

Fixpoint dict_get (d : dict) (k : bytes) : option bytes :=
  match d with
  | [] => None
  | (k', v) :: d' => if bytes_eqb k' k then Some v else dict_get d' k
  end.

Fixpoint dict_set (d : dict) (k v : bytes) : dict :=
  match d with
  | [] => [(k, v)]
  | (k', v') :: d' =>
      if bytes_eqb k' k then (k, v) :: d' else (k', v') :: dict_set d' k v
  end.

(** [isheader]: the lower-cased text before the first colon. *)
Definition isheader (line : bytes) : option bytes :=
  match find_byte x3a line with
  | Some i => Some (lower (firstn i line))
  | None => None
  end.

(** [islast]: a blank line. *)
Definition islast (line : bytes) : bool :=
  bytes_eqb line CRLF || bytes_eqb line [LF].

Definition is_continuation (line : bytes) : bool :=
  match line with
  | c :: _ => Byte.eqb c x20 || Byte.eqb c x09
  | [] => false
  end.

(** The [while 1] loop of [readheaders] over the lines still to read.
    [headerseen] starts as the empty string and then holds the name
    [isheader] last returned; the loop stops when [isheader] returns
    [None]. *)
Fixpoint readheaders (lines : list bytes) (firstline : bool)
         (headerseen : bytes) (d : dict) : dict :=
  match lines with
  | [] => d
  | line :: rest =>
      if firstline && startswith (b "From ") line then
        readheaders rest firstline headerseen d
      else if negb (bytes_eqb headerseen []) && is_continuation line then
        let old := match dict_get d headerseen with
                   | Some v => v
                   | None => []
                   end in
        let x := old ++ b (String "010" " ") ++ strip line in
        readheaders rest false headerseen (dict_set d headerseen (strip x))
      else if islast line then d
      else match isheader line with
           | Some name =>
               if negb (bytes_eqb name []) then
                 readheaders rest false name
                   (dict_set d name
                      (strip (skipn (List.length name + 1) line)))
               else readheaders rest false name d
           | None => d
           end
  end.

(** [mimetools.Message(io.BytesIO(block))] *)
Definition Message (block : bytes) : dict :=
  readheaders (readlines block) true [] [].

(** [headers.get(name)] *)
Definition get (headers : dict) (name : bytes) : option bytes :=
  dict_get headers (lower name).

End Mimetools.

(** ** [class NotificationProtocol(asyncio.Protocol)] *)

Module Notification.

(** The transport, as far as the protocol acts on it. *)
Record Transport : Type := {
  written : list bytes;
  closing : bool
}.

(** The factory: the calls [send_data(data, subscriber_id)] it received. *)
Record Factory : Type := {
  sent : list (bytes * bytes)
}.

Inductive State : Type := INIT | HEADERS | BODY.

Definition State_eqb (x y : State) : bool :=
  match x, y with
  | INIT, INIT | HEADERS, HEADERS | BODY, BODY => true
  | _, _ => false
  end.

Record NotificationProtocol : Type := {
  _factory : Factory;
  _transport : Transport;
  _data : option bytes;
  _state : State;
  _subscriber_id : option bytes;
  _length : Z
}.

Definition set_transport (t : Transport) : M NotificationProtocol unit :=
  modify (fun self =>
    {| _factory := _factory self; _transport := t; _data := _data self;
       _state := _state self; _subscriber_id := _subscriber_id self;
       _length := _length self |}).

Definition set_factory (f : Factory) : M NotificationProtocol unit :=
  modify (fun self =>
    {| _factory := f; _transport := _transport self; _data := _data self;
       _state := _state self; _subscriber_id := _subscriber_id self;
       _length := _length self |}).

Definition set_data (d : option bytes) : M NotificationProtocol unit :=
  modify (fun self =>
    {| _factory := _factory self; _transport := _transport self;
       _data := d; _state := _state self;
       _subscriber_id := _subscriber_id self; _length := _length self |}).

Definition set_state (p : State) : M NotificationProtocol unit :=
  modify (fun self =>
    {| _factory := _factory self; _transport := _transport self;
       _data := _data self; _state := p;
       _subscriber_id := _subscriber_id self; _length := _length self |}).

Definition set_subscriber_id (i : option bytes)
  : M NotificationProtocol unit :=
  modify (fun self =>
    {| _factory := _factory self; _transport := _transport self;
       _data := _data self; _state := _state self;
       _subscriber_id := i; _length := _length self |}).

Definition set_length (n : Z) : M NotificationProtocol unit :=
  modify (fun self =>
    {| _factory := _factory self; _transport := _transport self;
       _data := _data self; _state := _state self;
       _subscriber_id := _subscriber_id self; _length := n |}).

(** [__init__] followed by [connection_made(transport)]. *)
Definition connection_made (factory : Factory) (transport : Transport)
  : NotificationProtocol :=
  {| _factory := factory; _transport := transport; _data := Some [];
     _state := INIT; _subscriber_id := None; _length := 0 |}.

(** [self._data] where a byte string is needed; it is [None] only after
    [connection_lost]. *)
Definition self_data : M NotificationProtocol bytes :=
  self <- get ;;
  match _data self with
  | Some d => ret d
  | None => raise AttributeError
  end.

Definition write_status (status : bytes) : M NotificationProtocol unit :=
  self <- get ;;
  let t := _transport self in
  set_transport
    {| written := written t ++ [b "HTTP/1.0 " ++ status ++ CRLFCRLF];
       closing := closing t |} ;;
  self <- get ;;
  set_transport {| written := written (_transport self); closing := true |}.

Definition send_data (data subscriber_id : bytes)
  : M NotificationProtocol unit :=
  self <- get ;;
  set_factory {| sent := sent (_factory self) ++ [(data, subscriber_id)] |}.

(** A statement block either falls through or executes [return]. *)
Inductive flow : Type := Next | Return.

(** [if self._state == 'INIT' and b'\r\n' in self._data: ...] *)
Definition init_block : M NotificationProtocol flow :=
  self <- get ;;
  data <- self_data ;;
  if State_eqb (_state self) INIT && bytes_in CRLF data then
    match split1 CRLF data with
    | [first_line; rest] =>
        set_data (Some rest) ;;
        match split_ws first_line with
        | [verb; uri; version] =>
            if negb (bytes_eqb verb (b "POST")) then
              write_status (b "405 Not Allowed") ;;
              ret Return
            else
              set_state HEADERS ;;
              set_subscriber_id (Some (skipn 1 uri)) ;;
              ret Next
        | _ => raise ValueError
        end
    | _ => raise ValueError
    end
  else ret Next.

Section Interpreted.

Context {python : Interpreter}.

(** The module-level name [Message], called on [io.BytesIO(block)]: it is
    [mimetools.Message] where [import mimetools] succeeds; after
    [ImportError] it is [email.mime.message.MIMEMessage], whose constructor
    takes a message object and raises [TypeError] on anything else. *)
Definition Message (block : bytes) : M NotificationProtocol Mimetools.dict :=
  match python with
  | Python2 => ret (Mimetools.Message block)
  | Python3 _ => raise TypeError
  end.

(** [str(x)] for a [bytearray] [x]. *)
Definition str (x : bytes) : bytes :=
  match python with
  | Python2 => x
  | Python3 repr => repr x
  end.

(** [if self._state == 'HEADERS' and b'\r\n\r\n' in self._data: ...] *)
Definition headers_block : M NotificationProtocol flow :=
  self <- get ;;
  data <- self_data ;;
  if State_eqb (_state self) HEADERS && bytes_in CRLFCRLF data then
    match split1 CRLFCRLF data with
    | [headers; rest] =>
        set_data (Some rest) ;;
        headers <- Message headers ;;
        let length := Mimetools.get headers (b "content-length") in
        match length with
        | None | Some [] =>
            write_status (b "400 Bad Request") ;;
            ret Return
        | Some length =>
            match int length with
            | Some n =>
                set_length n ;;
                set_state BODY ;;
                ret Next
            | None => raise ValueError
            end
        end
    | _ => raise ValueError
    end
  else ret Next.

(** [if self._state == 'BODY': ...] *)
Definition body_block : M NotificationProtocol unit :=
  self <- get ;;
  if State_eqb (_state self) BODY then
    data <- self_data ;;
    if (_length self <=? Z.of_nat (List.length data))%Z then
      match _subscriber_id self with
      | Some (c :: i) =>
          send_data data (str (c :: i)) ;;
          write_status (b "200 OK")
      | _ => write_status (b "400 Bad Request")
      end
    else ret tt
  else ret tt.

Definition data_received (data : bytes) : M NotificationProtocol unit :=
  buf <- self_data ;;
  set_data (Some (buf ++ data)) ;;
  f <- init_block ;;
  match f with
  | Return => ret tt
  | Next =>
      f <- headers_block ;;
      match f with
      | Return => ret tt
      | Next => body_block
      end
  end.

Definition connection_lost : M NotificationProtocol unit :=
  set_data None ;;
  set_subscriber_id None ;;
  set_length 0.

(** The event loop's side of the contract: chunks are delivered in order;
    once the protocol has closed its transport no more data arrives and
    [connection_lost] is called.  An exception leaving [data_received]
    ends the run with that exception. *)
Fixpoint feed (chunks : list bytes) : M NotificationProtocol unit :=
  match chunks with
  | [] => ret tt
  | c :: rest =>
      data_received c ;;
      self <- get ;;
      if closing (_transport self) then connection_lost else feed rest
  end.

End Interpreted.

Definition fresh : NotificationProtocol :=
  connection_made {| sent := [] |} {| written := []; closing := false |}.

End Notification.

(** ** Python values as [json.loads] produces them *)

Module Value.

#[warnings="-register-all"]
Inductive json : Type :=
| JNull
| JBool (v : bool)
| JNum (n : Z)
| JStr (s : string)
| JArr (l : list json)
| JObj (o : list (string * json)).

Fixpoint lookup (o : list (string * json)) (k : string) : option json :=
  match o with
  | [] => None
  | (k', v) :: o' => if String.eqb k' k then Some v else lookup o' k
  end.

(** [d.get(k)]: only a dict has the method. *)
Definition py_get {S} (d : json) (k : string) : M S json :=
  match d with
  | JObj o => ret (match lookup o k with Some v => v | None => JNull end)
  | _ => raise AttributeError
  end.

(** [d.get(k, default)] *)
Definition py_get_default {S} (d : json) (k : string) (default : json)
  : M S json :=
  match d with
  | JObj o => ret (match lookup o k with Some v => v | None => default end)
  | _ => raise AttributeError
  end.

(** [d[k]] *)
Definition py_getitem {S} (d : json) (k : string) : M S json :=
  match d with
  | JObj o => match lookup o k with
              | Some v => ret v
              | None => raise KeyError
              end
  | _ => raise TypeError
  end.

(** [d.items()] *)
Definition py_items {S} (d : json) : M S (list (string * json)) :=
  match d with
  | JObj o => ret o
  | _ => raise AttributeError
  end.

Definition is_str (s : string) (v : json) : bool :=
  match v with
  | JStr s' => String.eqb s' s
  | _ => false
  end.

(** [k in c] for a string [k]: key of a dict, element of a list,
    substring of a string; the other values are not containers. *)
Definition py_in {S} (k : string) (c : json) : M S bool :=
  match c with
  | JObj o => ret (match lookup o k with Some _ => true | None => false end)
  | JArr l => ret (existsb (is_str k) l)
  | JStr s => ret (bytes_in (b k) (b s))
  | _ => raise TypeError
  end.

(** [u.update(pairs)] on a dict held as its item list. *)
Fixpoint set_item (o : list (string * json)) (k : string) (v : json)
  : list (string * json) :=
  match o with
  | [] => [(k, v)]
  | (k', v') :: o' =>
      if String.eqb k' k then (k, v) :: o' else (k', v') :: set_item o' k v
  end.

Definition update (o pairs : list (string * json)) : list (string * json) :=
  fold_left (fun acc kv => set_item acc (fst kv) (snd kv)) pairs o.

End Value.

Import Value.

(** ** [class MessagingProtocol(websocket.WebSocketServerProtocol)] *)

Module Messaging.

Local Open Scope string_scope.
Local Open Scope Z_scope.

(** What [auth_strategy] is called with and what it returns: the
    application wrapping [self._auth_start]. *)
Definition AuthStrategy := string.

Record AuthApp : Type := { wraps : AuthStrategy }.

(** A handle of [loop.call_later]: an index into the loop's timers. *)
Definition Handle := nat.

Record MessagingProtocol : Type := {
  proto_id : string;
  _auth_strategy : option AuthStrategy;
  secret_key : string;                      (* self.factory._secret_key *)
  _authentified : bool;
  _auth_app : option AuthApp;
  _deauth_handle : option Handle
}.

(** The backend request handler ([self._handler]). *)
Class Handler : Type := {
  Request : Type;
  Response : Type;
  create_response : Z -> json -> option Request -> Response;
  create_request : json -> Request;
  validate_request : json -> Request -> option Response;
  process_request : Request -> MessagingProtocol -> Response;
  verify_signature : string -> json -> bool;
  get_response : Response -> json
}.

(** How [json.loads(payload)] ends: it returns the decoded value, or it
    raises [e], an exception whose [str(e)] is [message]. *)
Inductive decoded : Type :=
| Decoded (payload : json)
| Raises (e : exn) (message : string).

(** The library calls of the module: [json.loads], [json.dumps],
    [timeutils.parse_isotime] (an instant in microseconds, [None] for
    [ValueError]), [upper()] of a text, which follows the Unicode case
    tables of the interpreter, and [int()] of a text on the literals that
    [Py.int] does not read (digits grouped by underscores, digits of other
    scripts): which of them are read depends on the interpreter. *)
Class Libs : Type := {
  json_loads : string -> decoded;
  json_dumps : json -> string;
  parse_isotime : json -> option Z;
  text_upper : string -> string;
  int_beyond : bytes -> option Z
}.

Inductive Callback : Type := deauthenticate_cb.

Record Timer : Type := {
  delay : Z;                 (* microseconds; [total_seconds()] of it *)
  callback : Callback;
  cancelled : bool;
  ran : bool
}.

(** What went out on the websocket. *)
Inductive Sent : Type :=
| sendMessage (payload : string) (isBinary : bool)
| sendClose (code : Z) (reason : string).

(** The protocol object together with the objects it acts on. *)
Record World : Type := {
  self : MessagingProtocol;
  _loop : list Timer;
  now : Z;                   (* the UTC clock, microseconds *)
  wire : list Sent;
  auth_calls : list (AuthApp * list (string * json))
}.

Definition set_self (f : MessagingProtocol -> MessagingProtocol)
  : M World unit :=
  modify (fun w =>
    {| self := f (self w); _loop := _loop w; now := now w;
       wire := wire w; auth_calls := auth_calls w |}).

Definition set_authentified (v : bool) : M World unit :=
  set_self (fun p =>
    {| proto_id := proto_id p; _auth_strategy := _auth_strategy p;
       secret_key := secret_key p; _authentified := v;
       _auth_app := _auth_app p; _deauth_handle := _deauth_handle p |}).

Definition set_auth_app (a : option AuthApp) : M World unit :=
  set_self (fun p =>
    {| proto_id := proto_id p; _auth_strategy := _auth_strategy p;
       secret_key := secret_key p; _authentified := _authentified p;
       _auth_app := a; _deauth_handle := _deauth_handle p |}).

Definition set_deauth_handle (h : option Handle) : M World unit :=
  set_self (fun p =>
    {| proto_id := proto_id p; _auth_strategy := _auth_strategy p;
       secret_key := secret_key p; _authentified := _authentified p;
       _auth_app := _auth_app p; _deauth_handle := h |}).

Definition set_loop (l : list Timer) : M World unit :=
  modify (fun w =>
    {| self := self w; _loop := l; now := now w;
       wire := wire w; auth_calls := auth_calls w |}).

Definition emit (x : Sent) : M World unit :=
  modify (fun w =>
    {| self := self w; _loop := _loop w; now := now w;
       wire := wire w ++ [x]; auth_calls := auth_calls w |}).

Definition call_auth_app (a : AuthApp) (env : list (string * json))
  : M World unit :=
  modify (fun w =>
    {| self := self w; _loop := _loop w; now := now w;
       wire := wire w; auth_calls := auth_calls w ++ [(a, env)] |}).

(** [handle.cancel()] *)
Fixpoint cancel_at (l : list Timer) (h : Handle) : list Timer :=
  match l, h with
  | [], _ => []
  | t :: l', O =>
      {| delay := delay t; callback := callback t;
         cancelled := true; ran := ran t |} :: l'
  | t :: l', S h' => t :: cancel_at l' h'
  end.

Definition cancel (h : Handle) : M World unit :=
  w <- get ;; set_loop (cancel_at (_loop w) h).

(** [loop.call_later(delay, callback)]: scheduled whatever the delay. *)
Definition call_later (d : Z) (cb : Callback) : M World Handle :=
  w <- get ;;
  set_loop (_loop w ++
            [{| delay := d; callback := cb;
                cancelled := false; ran := false |}]) ;;
  ret (List.length (_loop w)).

Definition _fake_env : list (string * json) :=
  [("REQUEST_METHOD", JStr "POST");
   ("SERVER_NAME", JStr "zaqar");
   ("SERVER_PORT", JNum 80);
   ("SERVER_PROTOCOL", JStr "HTTP/1.1");
   ("PATH_INFO", JStr "/");
   ("SCRIPT_NAME", JStr "");
   ("wsgi.url_scheme", JStr "http")].

Section Protocol.

Context {handler : Handler} {libs : Libs}.

(** [int(s)] for a text [s]. *)
Definition text_int (s : bytes) : option Z :=
  match int s with
  | Some n => Some n
  | None => int_beyond s
  end.

Definition _header_to_env_var (key : string) : string :=
  "HTTP_" ++ text_upper (string_of_list_byte (replace_byte x2d x5f (b key))).

Definition _send_response (resp : Response) : M World unit :=
  let resp_json := json_dumps (get_response resp) in
  emit (sendMessage resp_json false).

Definition _deauthenticate : M World unit :=
  set_authentified false ;;
  emit (sendClose 4003 "Authentication expired.").

Definition _auth_response (status : string) (message : list json)
  : M World unit :=
  match split_ws (b status) with
  | [] => raise IndexError
  | tok :: _ =>
      match text_int tok with
      | None => raise ValueError
      | Some code =>
          let req :=
            create_request (JObj [("action", JStr "authenticate")]) in
          if negb (code =? 200) then
            let body := JObj [("error", JStr "Authentication failed.")] in
            let resp := create_response code body (Some req) in
            _send_response resp
          else
            let body := JObj [("message", JStr "Authentified.")] in
            let resp := create_response 200 body (Some req) in
            _send_response resp
      end
  end.

Definition _auth_start (env : json)
           (start_response : string -> list json -> M World unit)
  : M World unit :=
  set_authentified true ;;
  set_auth_app None ;;
  info <- py_getitem env "keystone.token_info" ;;
  token <- py_getitem info "token" ;;
  expire <- py_getitem token "expires_at" ;;
  match parse_isotime expire with
  | None => raise ValueError
  | Some expire_time =>
      w <- get ;;
      let delta := expire_time - now w in
      match _deauth_handle (self w) with
      | Some h => cancel h
      | None => ret tt
      end ;;
      h <- call_later delta deauthenticate_cb ;;
      set_deauth_handle (Some h) ;;
      start_response "200 OK" []
  end.

Definition _authenticate (payload : json) : M World unit :=
  w <- get ;;
  match _auth_strategy (self w) with
  | None => raise TypeError
  | Some strategy =>
      let app := {| wraps := strategy |} in
      set_auth_app (Some app) ;;
      headers <- py_get payload "headers" ;;
      items <- py_items headers ;;
      let env :=
        update _fake_env
          (map (fun kv => (_header_to_env_var (fst kv), snd kv)) items) in
      call_auth_app app env
  end.

Definition onMessage (payload : string) (isBinary : bool)
  : M World unit :=
  if isBinary then
    let body := JObj [("error", JStr "Schema validation failed.")] in
    let resp := create_response 400 body None in
    _send_response resp
  else
    match json_loads payload with
    | Raises e ex =>
        if is_ValueError e then
          let body := JObj [("error", JStr ex)] in
          let resp := create_response 400 body None in
          _send_response resp
        else raise e
    | Decoded payload =>
        let req := create_request payload in
        match validate_request payload req with
        | Some resp => _send_response resp
        | None =>
            w <- get ;;
            let self := self w in
            if (match _auth_strategy self with
                | Some _ => true
                | None => false
                end) && negb (_authentified self) then
              signed <- match _auth_app self with
                        | Some _ => ret true
                        | None =>
                            action <- py_get payload "action" ;;
                            ret (negb (is_str "authenticate" action))
                        end ;;
              if (signed : bool) then
                headers <- py_get_default payload "headers" (JObj []) ;;
                present <- py_in "URL-Signature" headers ;;
                if (present : bool) then
                  if verify_signature (secret_key self) payload then
                    _send_response (process_request req self)
                  else
                    let body := JObj [("error", JStr "Not authentified.")] in
                    _send_response (create_response 403 body (Some req))
                else
                  let body := JObj [("error", JStr "Not authentified.")] in
                  _send_response (create_response 403 body (Some req))
              else _authenticate payload
            else
              action <- py_get payload "action" ;;
              if is_str "authenticate" action then _authenticate payload
              else _send_response (process_request req self)
        end
    end.

Definition onClose (wasClean : bool) (code : Z) (reason : string)
  : M World unit :=
  ret tt.

(** *** The callers of the protocol object

    The websocket transport calls [onMessage] and [onClose]; the
    authentication application either calls the wrapped
    [self._auth_start(env, start_response)], where [start_response] is
    the [self._auth_response] it was invoked with, or answers by itself
    through [self._auth_response(status, headers)]; the loop runs a
    timer's callback once, unless the handle was cancelled. *)

Inductive event : Type :=
| Message (payload : string) (isBinary : bool)
| AuthAccepted (env : json)
| AuthRejected (status : string)
| TimerDue (h : Handle)
| ClockAdvanced (dt : Z)
| Closed (wasClean : bool) (code : Z) (reason : string).

Fixpoint mark_ran (l : list Timer) (h : Handle) : list Timer :=
  match l, h with
  | [], _ => []
  | t :: l', O =>
      {| delay := delay t; callback := callback t;
         cancelled := cancelled t; ran := true |} :: l'
  | t :: l', S h' => t :: mark_ran l' h'
  end.

Definition live (l : list Timer) (h : Handle) : bool :=
  match nth_error l h with
  | Some t => negb (cancelled t) && negb (ran t)
  | None => false
  end.

Definition fire (h : Handle) : M World unit :=
  w <- get ;;
  if live (_loop w) h then
    set_loop (mark_ran (_loop w) h) ;;
    match nth_error (_loop w) h with
    | Some {| callback := deauthenticate_cb |} => _deauthenticate
    | None => ret tt
    end
  else ret tt.

Definition advance (dt : Z) : M World unit :=
  modify (fun w =>
    {| self := self w; _loop := _loop w; now := now w + dt;
       wire := wire w; auth_calls := auth_calls w |}).

Definition handle_event (e : event) : M World unit :=
  match e with
  | Message payload isBinary => onMessage payload isBinary
  | AuthAccepted env => _auth_start env _auth_response
  | AuthRejected status => _auth_response status []
  | TimerDue h => fire h
  | ClockAdvanced dt => advance dt
  | Closed wasClean code reason => onClose wasClean code reason
  end.

(** An exception leaving a callback is logged by the loop; the objects
    stay as the callback left them. *)
Definition step (w : World) (e : event) : World :=
  final_state (handle_event e w).

Definition run (events : list event) (w : World) : World :=
  fold_left step events w.

(** [__init__], on a loop with nothing scheduled yet. *)
Definition connect (proto_id : string) (auth_strategy : option AuthStrategy)
           (key : string) (t0 : Z) : World :=
  {| self := {| proto_id := proto_id; _auth_strategy := auth_strategy;
                secret_key := key; _authentified := false;
                _auth_app := None; _deauth_handle := None |};
     _loop := []; now := t0; wire := []; auth_calls := [] |}.

(** The world after one more frame went out. *)
Definition sends (w : World) (x : Sent) : World :=
  {| self := self w; _loop := _loop w; now := now w;
     wire := wire w ++ [x]; auth_calls := auth_calls w |}.

(** The call returned after sending the encoding of [resp], and did
    nothing else. *)
Definition replied (resp : Response) (w : World)
           (o : outcome World unit) : Prop :=
  o = Returned tt
        (sends w (sendMessage (json_dumps (get_response resp)) false)).

(** The frame went to [process_request] with the session as context and
    the result was the reply. *)
Definition dispatched (payload : json) (w : World)
           (o : outcome World unit) : Prop :=
  replied (process_request (create_request payload) (self w)) w o.

(** The wire format of a frame: a JSON object whose [headers], when
    present, is a mapping. *)
Definition wire_frame (payload : json) : Prop :=
  exists o, payload = JObj o /\
    (lookup o "headers" = None \/
     exists h, lookup o "headers" = Some (JObj h)).

(** A frame that passed the handler's validation. *)
Definition structurally_valid (payload : json) : Prop :=
  wire_frame payload /\
  validate_request payload (create_request payload) = None.

(** The frame's action is ["authenticate"]. *)
Definition action_is_authenticate (payload : json) : bool :=
  match payload with
  | JObj o => match lookup o "action" with
              | Some v => is_str "authenticate" v
              | None => false
              end
  | _ => false
  end.

(** The frame carries an [URL-Signature] header. *)
Definition has_signature (payload : json) : bool :=
  match payload with
  | JObj o => match lookup o "headers" with
              | Some (JObj h) =>
                  match lookup h "URL-Signature" with
                  | Some _ => true
                  | None => false
                  end
              | _ => false
              end
  | _ => false
  end.

(** The expiry the authenticator left in the environment. *)
Definition token_expiry (env : json) : option Z :=
  match env with
  | JObj e =>
      match lookup e "keystone.token_info" with
      | Some (JObj i) =>
          match lookup i "token" with
          | Some (JObj t) =>
              match lookup t "expires_at" with
              | Some x => parse_isotime x
              | None => None
              end
          | _ => None
          end
      | _ => None
      end
  | _ => None
  end.

(** The authenticator's side of the contract: success comes with a
    readable expiry. *)
Definition honours_contract (e : event) : Prop :=
  match e with
  | AuthAccepted env => token_expiry env <> None
  | _ => True
  end.

(** The world once [_auth_start] has scheduled the timer for the expiry
    [expire_time], before it calls [start_response]. *)
Definition rearmed (w : World) (expire_time : Z) : World :=
  {| self := {| proto_id := proto_id (self w);
                _auth_strategy := _auth_strategy (self w);
                secret_key := secret_key (self w);
                _authentified := true;
                _auth_app := None;
                _deauth_handle := Some (List.length (_loop w)) |};
     _loop := match _deauth_handle (self w) with
              | Some h => cancel_at (_loop w) h
              | None => _loop w
              end ++ [{| delay := expire_time - now w;
                         callback := deauthenticate_cb;
                         cancelled := false; ran := false |}];
     now := now w;
     wire := wire w;
     auth_calls := auth_calls w |}.

(** [w'] has the authentication flag, the timer handle and the loop's
    timers of [w]. *)
Definition timer_kept (w w' : World) : Prop :=
  _authentified (self w') = _authentified (self w) /\
  _deauth_handle (self w') = _deauth_handle (self w) /\
  _loop w' = _loop w.

(** A method that leaves them alone, however it ends. *)
Definition keeps_timer {A : Type} (m : M World A) : Prop :=
  forall w, timer_kept w (final_state (m w)).

(** An authenticated session holds the handle of a timer that is
    scheduled, not cancelled, and has not run. *)
Definition timer_armed (w : World) : Prop :=
  _authentified (self w) = true ->
  exists h, _deauth_handle (self w) = Some h /\ live (_loop w) h = true.

End Protocol.

End Messaging.

(** ** Notification messages on the wire

    [POST /<subscriber-id> HTTP/1.x\r\n<headers>\r\n\r\n<body>], where the
    headers include [Content-Length] and it counts the bytes of the body. *)

Module Wire.

Import Notification.

(** No whitespace inside: one token of the request line. *)
Definition token (s : bytes) : bool :=
  forallb (fun c => negb (isspace c)) s.

(** The blank line written after the header block is the first one. *)
Definition no_blank_line (headers : bytes) : Prop :=
  partition CRLFCRLF (headers ++ CRLFCRLF) = Some (headers, []).

Definition request (subscriber_id version headers body : bytes) : bytes :=
  b "POST /" ++ subscriber_id ++ b " " ++ version ++ CRLF
    ++ headers ++ CRLFCRLF ++ body.

Definition well_formed (msg subscriber_id body : bytes) : Prop :=
  exists version headers value,
    msg = request subscriber_id version headers body /\
    subscriber_id <> [] /\ token subscriber_id = true /\
    version <> [] /\ token version = true /\
    no_blank_line headers /\
    Mimetools.get (Mimetools.Message headers) (b "content-length")
      = Some value /\
    int value = Some (Z.of_nat (List.length body)).

(** A protocol object holding a buffer. *)
Definition mk (f : Factory) (t : Transport) (d : bytes) (s : State)
           (i : option bytes) (n : Z) : NotificationProtocol :=
  {| _factory := f; _transport := t; _data := Some d; _state := s;
     _subscriber_id := i; _length := n |}.

(** The transport after [write_status(status)]. *)
Definition status_written (t : Transport) (status : bytes) : Transport :=
  {| written := written t ++ [b "HTTP/1.0 " ++ status ++ CRLFCRLF];
     closing := true |}.

(** What the protocol did on a connection: the status lines written, whether
    it closed, and what it handed to the factory. *)
Definition delivered (data subscriber_id : bytes) (p : NotificationProtocol)
  : Prop :=
  sent (_factory p) = [(data, subscriber_id)] /\
  written (_transport p) = [b "HTTP/1.0 200 OK" ++ CRLFCRLF] /\
  closing (_transport p) = true.

Definition refused (status : bytes) (p : NotificationProtocol) : Prop :=
  sent (_factory p) = [] /\
  written (_transport p) = [b "HTTP/1.0 " ++ status ++ CRLFCRLF] /\
  closing (_transport p) = true.

(** The message of the scenario: five bytes for subscriber [sub1]. *)
Definition scenario_D : bytes :=
  b "POST /sub1 HTTP/1.1" ++ CRLF ++ b "Content-Length: 5" ++ CRLFCRLF
    ++ b "hello".

(** One byte per chunk. *)
Definition bytewise (s : bytes) : list bytes := map (fun c => [c]) s.

End Wire.

(** ** Test doubles

    A handler that answers every valid request with a fixed acknowledgement,
    and library stand-ins working on a printed form of the values. *)

Module Fixture.

Import Messaging.
Local Open Scope string_scope.

Definition dq : string := String "034" EmptyString.

(** A plain printer of values; strings are written without escapes. *)
Fixpoint dumps (v : json) : string :=
  match v with
  | JNull => "null"
  | JBool true => "true"
  | JBool false => "false"
  | JNum n => NilEmpty.string_of_int (Z.to_int n)
  | JStr s => dq ++ s ++ dq
  | JArr l =>
      "[" ++ (fix elems (l : list json) : string :=
                match l with
                | [] => ""
                | [x] => dumps x
                | x :: l' => dumps x ++ ", " ++ elems l'
                end) l ++ "]"
  | JObj o =>
      "{" ++ (fix members (o : list (string * json)) : string :=
                match o with
                | [] => ""
                | [(k, x)] => dq ++ k ++ dq ++ ": " ++ dumps x
                | (k, x) :: o' =>
                    dq ++ k ++ dq ++ ": " ++ dumps x ++ ", " ++ members o'
                end) o ++ "}"
  end.

Definition login : json :=
  JObj [("action", JStr "authenticate");
        ("headers", JObj [("X-Auth-Token", JStr "t0k3n")])].

Definition login_without_headers : json :=
  JObj [("action", JStr "authenticate")].

Definition queue_list : json :=
  JObj [("action", JStr "queue_list");
        ("headers", JObj [("Client-ID", JStr "c1")])].

Definition signed_queue_list : json :=
  JObj [("action", JStr "queue_list");
        ("headers", JObj [("URL-Signature", JStr "s3cr3t")])].

Definition forged_queue_list : json :=
  JObj [("action", JStr "queue_list");
        ("headers", JObj [("URL-Signature", JStr "guess")])].

Definition known_frames : list json :=
  [login; login_without_headers; queue_list; signed_queue_list;
   forged_queue_list].

(** How deep the arrays that open a text are nested. *)
Fixpoint nesting (s : string) : nat :=
  match s with
  | String c s' => if Ascii.eqb c "[" then S (nesting s') else 0
  | EmptyString => 0
  end.

(** The nesting beyond which the decoder exhausts the stack. *)
Definition recursion_limit : nat := 1000.

(** Decodes the printed form of the frames above, and nothing else; like
    [json.loads], it gives up with [RecursionError] on a text nested more
    deeply than the stack allows. *)
Definition loads (s : string) : decoded :=
  if Nat.ltb recursion_limit (nesting s) then
    Raises RecursionError "maximum recursion depth exceeded"
  else
    match find (fun v => String.eqb (dumps v) s) known_frames with
    | Some v => Decoded v
    | None => Raises ValueError "No JSON object could be decoded"
    end.

Fixpoint brackets (n : nat) : string :=
  match n with
  | O => EmptyString
  | S n' => String "[" (brackets n')
  end.

(** A text frame of three thousand opening brackets. *)
Definition deep_frame : string := brackets 3000.

#[export] Instance libs : Libs := {|
  json_loads := loads;
  json_dumps := dumps;
  parse_isotime := fun v => match v with JNum t => Some t | _ => None end;
  text_upper := fun s => string_of_list_byte (upper (b s));
  int_beyond := fun _ => None
|}.

Definition response_of (status : Z) (body : json) (req : option json)
  : json :=
  JObj [("request", match req with Some r => r | None => JNull end);
        ("headers", JObj [("status", JNum status)]);
        ("body", body)].

#[export] Instance handler : Handler := {|
  Request := json;
  Response := json;
  create_response := response_of;
  create_request := fun payload => payload;
  validate_request := fun payload req =>
    match payload with
    | JObj o =>
        match lookup o "action" with
        | Some (JStr _) => None
        | _ => Some (response_of 400
                       (JObj [("error", JStr "Schema validation failed.")])
                       (Some req))
        end
    | _ => Some (response_of 400
                   (JObj [("error", JStr "Schema validation failed.")])
                   (Some req))
    end;
  process_request := fun req self =>
    response_of 200 (JObj [("served", JStr (proto_id self))]) (Some req);
  verify_signature := fun key payload =>
    match payload with
    | JObj o =>
        match lookup o "headers" with
        | Some (JObj h) =>
            match lookup h "URL-Signature" with
            | Some v => is_str key v
            | None => false
            end
        | _ => false
        end
    | _ => false
    end;
  get_response := fun resp => resp
|}.

(** The environment a successful authentication hands to [_auth_start]. *)
Definition env_expiring (t : Z) : json :=
  JObj [("REQUEST_METHOD", JStr "POST");
        ("keystone.token_info",
         JObj [("token", JObj [("expires_at", JNum t)])])].

(** A session on a listener with authentication configured. *)
Definition guarded : World := connect "p1" (Some "keystone") "s3cr3t" 1000.

(** A session on a listener without authentication. *)
Definition open_session : World := connect "p2" None "s3cr3t" 1000.

(** The guarded session after a successful login expiring a minute
    later. *)
Definition logged_in : World :=
  run [AuthAccepted (env_expiring 60001000)] guarded.

End Fixture.

(** ** What the notification parser can do to a connection *)

Module Conduct.
Import Notification Wire.

Definition phase_rank (s : State) : nat :=
  match s with INIT => 0 | HEADERS => 1 | BODY => 2 end.

(** Nothing was written or delivered and the transport is open. *)
Definition quiet (p : NotificationProtocol) : Prop :=
  sent (_factory p) = [] /\ written (_transport p) = [] /\
  closing (_transport p) = false.

(** One status line was written and the transport closed; the factory was
    called once if the status is [200 OK], and not at all otherwise. *)
Definition answered (p : NotificationProtocol) : Prop :=
  closing (_transport p) = true /\
  ((exists data subscriber_id,
       subscriber_id <> [] /\
       sent (_factory p) = [(data, subscriber_id)] /\
       written (_transport p) = [b "HTTP/1.0 200 OK" ++ CRLFCRLF]) \/
   (sent (_factory p) = [] /\
    (written (_transport p) = [b "HTTP/1.0 400 Bad Request" ++ CRLFCRLF] \/
     written (_transport p) = [b "HTTP/1.0 405 Not Allowed" ++ CRLFCRLF]))).

(** What one call of [data_received] did to the factory and the transport. *)
Inductive effect : Type :=
| Nothing
| Refused (status : bytes)
| Delivered (data subscriber_id : bytes).

Section Interpreted.

Context {python : Interpreter}.

Definition factory_after (e : effect) (f : Factory) : Factory :=
  match e with
  | Delivered data subscriber_id =>
      {| sent := sent f ++ [(data, str subscriber_id)] |}
  | _ => f
  end.

Definition transport_after (e : effect) (t : Transport) : Transport :=
  match e with
  | Nothing => t
  | Refused status => status_written t status
  | Delivered _ _ => status_written t (b "200 OK")
  end.

Definition effect_ok (e : effect) : Prop :=
  match e with
  | Nothing => True
  | Refused status =>
      status = b "400 Bad Request" \/ status = b "405 Not Allowed"
  | Delivered _ subscriber_id => subscriber_id <> []
  end.

(** After [ImportError] the header block is never read: a call that
    starts before the body phase ends before it, and the one answer it can
    give is [405 Not Allowed]. *)
Definition within_reach (s : State) (e : effect) (s' : State) : Prop :=
  match python with
  | Python2 => True
  | Python3 _ =>
      s <> BODY ->
      s' <> BODY /\ (e = Nothing \/ e = Refused (b "405 Not Allowed"))
  end.

(** The protocol object [p'] as one call can leave it, having started in
    phase [s] with the subscriber [i]. *)
Definition left_as (f : Factory) (t : Transport) (s : State)
           (i : option bytes) (p' : NotificationProtocol) : Prop :=
  exists e d' s' i' n',
    p' = mk (factory_after e f) (transport_after e t) d' s' i' n' /\
    effect_ok e /\ phase_rank s <= phase_rank s' /\
    (s <> INIT -> i' = i) /\ within_reach s e s'.

(** The phases a connection can be in. *)
Definition in_reach (p : NotificationProtocol) : Prop :=
  match python with
  | Python2 => True
  | Python3 _ => _state p <> BODY
  end.

End Interpreted.

End Conduct.

(** ** What the session engine can do to its surroundings *)

Module Behaviour.
Import Messaging.

(** A method that only talks: the protocol object, the loop, the clock and
    the authenticator are as before, however it ends. *)
Definition inert {A : Type} (m : M World A) : Prop :=
  forall w, let w' := final_state (m w) in
            self w' = self w /\ _loop w' = _loop w /\ now w' = now w /\
            auth_calls w' = auth_calls w.

(** A method that neither sends nor calls the authenticator. *)
Definition silent {A : Type} (m : M World A) : Prop :=
  forall w, let w' := final_state (m w) in
            wire w' = wire w /\ auth_calls w' = auth_calls w.

(** A method that does at most one thing towards the outside: it sends one
    text frame, or calls the authenticator once, or neither. *)
Definition single_effect {A : Type} (m : M World A) : Prop :=
  forall w, let w' := final_state (m w) in
            (wire w' = wire w /\ auth_calls w' = auth_calls w) \/
            (exists text, wire w' = wire w ++ [sendMessage text false] /\
                          auth_calls w' = auth_calls w) \/
            (exists call, wire w' = wire w /\
                          auth_calls w' = auth_calls w ++ [call]).

(** The only timer that can still fire is the one the session holds. *)
Definition sole_timer (w : World) : Prop :=
  forall h, live (_loop w) h = true -> _deauth_handle (self w) = Some h.

(** The world after the first two assignments of [_auth_start]. *)
Definition marked (w : World) : World :=
  {| self := {| proto_id := proto_id (self w);
                _auth_strategy := _auth_strategy (self w);
                secret_key := secret_key (self w);
                _authentified := true;
                _auth_app := None;
                _deauth_handle := _deauth_handle (self w) |};
     _loop := _loop w; now := now w; wire := wire w;
     auth_calls := auth_calls w |}.

(** The world after [_authenticate] handed [env] to the application. *)
Definition attempting (w : World) (strategy : AuthStrategy)
           (env : list (string * json)) : World :=
  {| self := {| proto_id := proto_id (self w);
                _auth_strategy := _auth_strategy (self w);
                secret_key := secret_key (self w);
                _authentified := _authentified (self w);
                _auth_app := Some {| wraps := strategy |};
                _deauth_handle := _deauth_handle (self w) |};
     _loop := _loop w; now := now w; wire := wire w;
     auth_calls := auth_calls w ++ [({| wraps := strategy |}, env)] |}.

Section Environment.

Context {libs : Libs}.

(** The environment [_authenticate] builds from the headers of a frame. *)
Definition environment (headers : list (string * json))
  : list (string * json) :=
  update _fake_env
    (map (fun kv => (_header_to_env_var (fst kv), snd kv)) headers).

End Environment.

Local Open Scope string_scope.

(** A handler whose validation rejects every frame. *)
Definition closed_handler : Handler :=
  {| Request := json;
     Response := json;
     create_response := Fixture.response_of;
     create_request := fun payload => payload;
     validate_request := fun payload req =>
       Some (Fixture.response_of 400
               (JObj [("error", JStr "Schema validation failed.")])
               (Some req));
     process_request := fun req self =>
       Fixture.response_of 200 (JObj []) (Some req);
     verify_signature := fun key payload => false;
     get_response := fun resp => resp |}.

End Behaviour.

(** * Properties *)

(** ** Byte strings: cutting at a separator *)

Section Cutting.

Variable sep : bytes.

Lemma startswith_app_r (s t : bytes) :
  startswith sep s = true -> startswith sep (s ++ t) = true.
Proof.
  revert s; induction sep as [|c p IH]; intros s H; [reflexivity|].
  destruct s as [|d s]; [discriminate|].
  simpl in *. apply andb_true_iff in H as [Hc Hp].
  rewrite Hc. simpl. now apply IH.
Qed.

Lemma startswith_length (s : bytes) :
  startswith sep s = true -> List.length sep <= List.length s.
Proof.
  revert s; induction sep as [|c p IH]; intros s H; simpl; [lia|].
  destruct s as [|d s]; [discriminate|].
  simpl in *. apply andb_true_iff in H as [_ Hp].
  apply IH in Hp. lia.
Qed.

Lemma startswith_spec (s : bytes) :
  startswith sep s = true -> s = sep ++ skipn (List.length sep) s.
Proof.
  revert s; induction sep as [|c p IH]; intros s H; [reflexivity|].
  destruct s as [|d s]; [discriminate|].
  simpl in *. apply andb_true_iff in H as [Hc Hp].
  apply Byte.byte_dec_bl in Hc. subst d. f_equal. now apply IH.
Qed.

Lemma startswith_self (t : bytes) : startswith sep (sep ++ t) = true.
Proof.
  induction sep as [|c p IH]; [reflexivity|].
  simpl. rewrite (Byte.byte_dec_lb (eq_refl c)). exact IH.
Qed.

Lemma skipn_sep_app (s t : bytes) :
  startswith sep s = true ->
  skipn (List.length sep) (s ++ t) = skipn (List.length sep) s ++ t.
Proof.
  intros H. apply startswith_length in H.
  rewrite skipn_app.
  replace (List.length sep - List.length s) with 0 by lia.
  reflexivity.
Qed.

(** The cut really cuts [s] around [sep]. *)
Lemma partition_spec (s l r : bytes) :
  partition sep s = Some (l, r) -> s = l ++ sep ++ r.
Proof.
  revert l r; induction s as [|c s IH]; intros l r H.
  - simpl in H. destruct (startswith sep []) eqn:E; [|discriminate].
    injection H as <- <-. now apply startswith_spec.
  - simpl in H. destruct (startswith sep (c :: s)) eqn:E.
    + injection H as <- <-. now apply startswith_spec.
    + destruct (partition sep s) as [[l' r']|]; [|discriminate].
      injection H as <- <-. simpl. f_equal. now apply IH.
Qed.

Lemma startswith_app_long (s t : bytes) :
  List.length sep <= List.length s ->
  startswith sep (s ++ t) = startswith sep s.
Proof.
  revert s; induction sep as [|c p IH]; intros s H; [reflexivity|].
  destruct s as [|d s]; [simpl in H; lia|].
  simpl in *. rewrite IH by lia. reflexivity.
Qed.

Lemma partition_length (s l r : bytes) :
  partition sep s = Some (l, r) -> List.length sep <= List.length s.
Proof.
  intros H. apply partition_spec in H. subst s.
  rewrite !length_app. lia.
Qed.

(** Bytes arriving later do not move a cut that was already there. *)
Lemma partition_app (s t l r : bytes) :
  partition sep s = Some (l, r) ->
  partition sep (s ++ t) = Some (l, r ++ t).
Proof.
  revert l r; induction s as [|c s IH]; intros l r H.
  - simpl in H. destruct (startswith sep []) eqn:E; [|discriminate].
    injection H as <- <-.
    destruct sep as [|d p]; [|discriminate].
    destruct t; reflexivity.
  - pose proof (partition_length _ H) as Hlen.
    simpl in H.
    change ((c :: s) ++ t) with (c :: s ++ t).
    cbn [partition].
    change (c :: s ++ t) with ((c :: s) ++ t).
    rewrite (startswith_app_long _ t Hlen).
    destruct (startswith sep (c :: s)) eqn:E.
    + injection H as <- <-. now rewrite skipn_sep_app.
    + destruct (partition sep s) as [[l' r']|] eqn:P; [|discriminate].
      injection H as <- <-.
      now rewrite (IH _ _ eq_refl).
Qed.

(** [sep in s] holds exactly when there is a cut. *)
Lemma bytes_in_partition (s : bytes) :
  bytes_in sep s = match partition sep s with
                   | Some _ => true
                   | None => false
                   end.
Proof.
  induction s as [|c s IH]; simpl.
  - destruct (startswith sep []); reflexivity.
  - destruct (startswith sep (c :: s)); [reflexivity|].
    simpl. rewrite IH. destruct (partition sep s) as [[? ?]|]; reflexivity.
Qed.

(** A separator written right after [l], where [l ++ sep] holds no
    earlier one, is where the stream is cut. *)
Lemma partition_first (l r : bytes) :
  partition sep (l ++ sep) = Some (l, []) ->
  partition sep (l ++ sep ++ r) = Some (l, r).
Proof.
  intros H. rewrite app_assoc. now rewrite (partition_app _ r H).
Qed.

End Cutting.

Lemma partition_CRLF_no_CR (l r : bytes) :
  Forall (fun c => c <> CR) l ->
  partition CRLF (l ++ CRLF ++ r) = Some (l, r).
Proof.
  induction 1 as [|c l Hc _ IH]; [reflexivity|].
  change ((c :: l) ++ CRLF ++ r) with (c :: l ++ CRLF ++ r).
  cbn [partition]. rewrite IH.
  unfold CRLF at 1. cbn [startswith].
  destruct (Byte.eqb CR c) eqn:E; [|reflexivity].
  apply Byte.byte_dec_bl in E. congruence.
Qed.

(** ** The notification parser, block by block *)

Section Blocks.

Import Notification Wire.

Context {python : Interpreter}.

Variables (f : Factory) (t : Transport) (d : bytes) (i : option bytes)
          (n : Z).

Lemma init_block_wait :
  partition CRLF d = None ->
  init_block (mk f t d INIT i n) = Returned Next (mk f t d INIT i n).
Proof.
  intros P. unfold init_block, bind, get, self_data, mk. cbn.
  rewrite bytes_in_partition, P. reflexivity.
Qed.

Lemma init_block_cut (l r : bytes) :
  partition CRLF d = Some (l, r) ->
  init_block (mk f t d INIT i n) =
  match split_ws l with
  | [verb; uri; version] =>
      if bytes_eqb verb (b "POST")
      then Returned Next (mk f t r HEADERS (Some (skipn 1 uri)) n)
      else Returned Return
             (mk f (status_written t (b "405 Not Allowed")) r INIT i n)
  | _ => Raised ValueError (mk f t r INIT i n)
  end.
Proof.
  intros P. unfold init_block, bind, get, self_data, mk, split1. cbn.
  rewrite bytes_in_partition, P. cbn.
  destruct (split_ws l) as [|verb [|uri [|version [|]]]]; try reflexivity.
  destruct (bytes_eqb verb _); reflexivity.
Qed.

Lemma init_block_skip (s : State) :
  s <> INIT ->
  init_block (mk f t d s i n) = Returned Next (mk f t d s i n).
Proof. intros H. destruct s; [congruence|reflexivity|reflexivity]. Qed.

Lemma headers_block_wait :
  partition CRLFCRLF d = None ->
  headers_block (mk f t d HEADERS i n)
  = Returned Next (mk f t d HEADERS i n).
Proof.
  intros P. unfold headers_block, bind, get, self_data, mk. cbn.
  rewrite bytes_in_partition, P. reflexivity.
Qed.

Lemma headers_block_cut (h r : bytes) :
  partition CRLFCRLF d = Some (h, r) ->
  headers_block (mk f t d HEADERS i n) =
  match python with
  | Python2 =>
      match Mimetools.get (Mimetools.Message h) (b "content-length") with
      | Some (c :: v) =>
          match int (c :: v) with
          | Some k => Returned Next (mk f t r BODY i k)
          | None => Raised ValueError (mk f t r HEADERS i n)
          end
      | _ => Returned Return
               (mk f (status_written t (b "400 Bad Request")) r HEADERS i n)
      end
  | Python3 _ => Raised TypeError (mk f t r HEADERS i n)
  end.
Proof.
  intros P.
  unfold headers_block, Message, bind, get, self_data, mk, split1. cbn.
  rewrite bytes_in_partition, P. cbn.
  destruct python; [|reflexivity]. cbn.
  destruct (Mimetools.get _ _) as [[|c v]|]; try reflexivity.
  destruct (int _); reflexivity.
Qed.

Lemma headers_block_skip (s : State) :
  s <> HEADERS ->
  headers_block (mk f t d s i n) = Returned Next (mk f t d s i n).
Proof. intros H. destruct s; [reflexivity|congruence|reflexivity]. Qed.

Lemma body_block_skip (s : State) :
  s <> BODY ->
  body_block (mk f t d s i n) = Returned tt (mk f t d s i n).
Proof. intros H. destruct s; [reflexivity|reflexivity|congruence]. Qed.

Lemma body_block_wait :
  (Z.of_nat (List.length d) < n)%Z ->
  body_block (mk f t d BODY i n) = Returned tt (mk f t d BODY i n).
Proof.
  intros H. unfold body_block, bind, get, self_data, mk. cbn.
  apply Z.leb_gt in H. rewrite H. reflexivity.
Qed.

Lemma body_block_complete :
  (n <= Z.of_nat (List.length d))%Z ->
  body_block (mk f t d BODY i n) =
  match i with
  | Some (c :: s) =>
      Returned tt
        (mk {| sent := sent f ++ [(d, str (c :: s))] |}
            (status_written t (b "200 OK")) d BODY i n)
  | _ =>
      Returned tt (mk f (status_written t (b "400 Bad Request")) d BODY i n)
  end.
Proof.
  intros H. unfold body_block, bind, get, self_data, mk. cbn.
  apply Z.leb_le in H. rewrite H.
  destruct i as [[|c s]|]; reflexivity.
Qed.

(** [data_received] is the three blocks in a row, each able to return. *)
Lemma data_received_eq (data : bytes) (s : State) :
  data_received data (mk f t d s i n) =
  match init_block (mk f t (d ++ data) s i n) with
  | Returned Next st =>
      match headers_block st with
      | Returned Next st' => body_block st'
      | Returned Return st' => Returned tt st'
      | Raised e st' => Raised e st'
      end
  | Returned Return st => Returned tt st
  | Raised e st => Raised e st
  end.
Proof.
  unfold data_received, bind, self_data, get, mk, set_data, modify.
  cbn -[init_block headers_block body_block].
  destruct (init_block _) as [[|] st|e st]; try reflexivity.
  destruct (headers_block _) as [[|] st'|e st']; reflexivity.
Qed.

End Blocks.

(** ** Resuming: the state after a prefix only depends on the prefix *)

Section Resume.

Import Notification Wire.

Context {python : Interpreter}.

Lemma fresh_mk :
  fresh = mk {| sent := [] |} {| written := []; closing := false |}
             [] INIT None 0.
Proof. reflexivity. Qed.

Ltac closed_contra H Hopen :=
  injection H as <-; cbn in Hopen; discriminate Hopen.

(** While the transport is open, delivering [c] after [p] is delivering
    [p ++ c] at once. *)
Lemma data_received_resume (p c : bytes) (st : NotificationProtocol) :
  data_received p fresh = Returned tt st ->
  closing (_transport st) = false ->
  data_received c st = data_received (p ++ c) fresh.
Proof.
  rewrite fresh_mk, !data_received_eq. cbn [app].
  intros H Hopen.
  destruct (partition CRLF p) as [[l r]|] eqn:P1.
  - rewrite init_block_cut with (1 := P1) in H.
    rewrite init_block_cut with (1 := partition_app _ _ c P1).
    destruct (split_ws l) as [|verb [|uri [|version [|]]]];
      try discriminate H.
    destruct (bytes_eqb verb (b "POST")); [|closed_contra H Hopen].
    destruct (partition CRLFCRLF r) as [[h r2]|] eqn:P2.
    + rewrite headers_block_cut with (1 := P2) in H.
      rewrite headers_block_cut with (1 := partition_app _ _ c P2).
      destruct python; [|discriminate H].
      destruct (Mimetools.get _ _) as [[|v0 v]|];
        try closed_contra H Hopen.
      destruct (int (v0 :: v)) as [k|]; [|discriminate H].
      destruct (Z_lt_le_dec (Z.of_nat (List.length r2)) k) as [Hk|Hk].
      * rewrite body_block_wait with (1 := Hk) in H. injection H as <-.
        rewrite data_received_eq.
        rewrite init_block_skip, headers_block_skip by discriminate.
        reflexivity.
      * rewrite body_block_complete with (1 := Hk) in H.
        destruct (skipn 1 uri) as [|u0 u]; closed_contra H Hopen.
    + rewrite headers_block_wait with (1 := P2) in H.
      rewrite body_block_skip in H by discriminate. injection H as <-.
      rewrite data_received_eq.
      rewrite init_block_skip by discriminate. reflexivity.
  - rewrite init_block_wait with (1 := P1) in H.
    rewrite headers_block_skip, body_block_skip in H by discriminate.
    injection H as <-.
    rewrite data_received_eq. reflexivity.
Qed.

Lemma feed_cons (c : bytes) (rest : list bytes) (st : NotificationProtocol) :
  feed (c :: rest) st =
  match data_received c st with
  | Returned _ st' =>
      if closing (_transport st') then connection_lost st'
      else feed rest st'
  | Raised e st' => Raised e st'
  end.
Proof.
  cbn [feed]. unfold bind, get.
  destruct (data_received c st) as [[] s|e s]; [|reflexivity].
  destruct (closing (_transport s)); reflexivity.
Qed.

End Resume.

(** ** Well-formed notifications *)

Section WellFormed.

Import Notification Wire.

Lemma split_ws_aux_token (tok cur rest : bytes) :
  token tok = true ->
  split_ws_aux cur (tok ++ rest) = split_ws_aux (rev tok ++ cur) rest.
Proof.
  revert cur; induction tok as [|c tok IH]; intros cur H; [reflexivity|].
  simpl in H. apply andb_true_iff in H as [Hc Htok].
  apply negb_true_iff in Hc.
  cbn [app split_ws_aux]. rewrite Hc, (IH _ Htok).
  cbn [rev]. now rewrite <- app_assoc.
Qed.

Lemma token_no_CR (tok : bytes) :
  token tok = true -> Forall (fun c => c <> CR) tok.
Proof.
  induction tok as [|c tok IH]; intros H; constructor.
  - simpl in H. apply andb_true_iff in H as [Hc _].
    intros ->. discriminate Hc.
  - simpl in H. apply andb_true_iff in H as [_ Htok]. now apply IH.
Qed.

Variables subscriber_id version headers value body : bytes.

Hypothesis sub_token : token subscriber_id = true.
Hypothesis version_token : token version = true.
Hypothesis version_given : version <> [].
Hypothesis headers_end : no_blank_line headers.
Hypothesis length_header :
  Mimetools.get (Mimetools.Message headers) (b "content-length")
  = Some value.
Hypothesis length_value : int value = Some (Z.of_nat (List.length body)).

Let line : bytes := b "POST /" ++ subscriber_id ++ b " " ++ version.
Let rest : bytes := headers ++ CRLFCRLF ++ body.
Let msg : bytes := request subscriber_id version headers body.

Lemma request_line_tokens :
  split_ws line = [b "POST"; b "/" ++ subscriber_id; version].
Proof.
  unfold line, split_ws. cbn [b list_byte_of_string map app].
  cbn -[split_ws_aux]. cbn [split_ws_aux isspace rev app].
  rewrite (split_ws_aux_token _ _ _ sub_token).
  cbn [split_ws_aux isspace].
  destruct (rev subscriber_id ++ [x2f]) as [|c0 cur0] eqn:E.
  { apply (f_equal (@List.length byte)) in E.
    rewrite length_app in E. simpl in E. lia. }
  rewrite <- E, rev_app_distr, rev_involutive. cbn [rev app].
  f_equal. f_equal.
  rewrite <- (app_nil_r version) at 1.
  rewrite (split_ws_aux_token _ _ _ version_token).
  cbn [split_ws_aux]. rewrite app_nil_r.
  destruct (rev version) as [|v0 vs] eqn:Ev.
  { apply (f_equal (@rev byte)) in Ev. rewrite rev_involutive in Ev.
    contradiction. }
  now rewrite <- Ev, rev_involutive.
Qed.

Lemma msg_cut_line : partition CRLF msg = Some (line, rest).
Proof.
  unfold msg, request.
  replace (b "POST /" ++ subscriber_id ++ b " " ++ version ++ CRLF
             ++ headers ++ CRLFCRLF ++ body)
    with (line ++ CRLF ++ rest)
    by (unfold line, rest; now rewrite <- !app_assoc).
  apply partition_CRLF_no_CR.
  unfold line.
  apply Forall_app; split; [repeat constructor; discriminate|].
  apply Forall_app; split; [now apply token_no_CR|].
  apply Forall_app; split; [repeat constructor; discriminate|].
  now apply token_no_CR.
Qed.

Lemma rest_cut_headers : partition CRLFCRLF rest = Some (headers, body).
Proof. now apply partition_first. Qed.

Hypothesis sub_given : subscriber_id <> [].

Lemma length_value_cons : exists c v, value = c :: v.
Proof.
  destruct value as [|c v]; [discriminate length_value|eauto].
Qed.

Let f0 : Factory := {| sent := [] |}.
Let t0 : Transport := {| written := []; closing := false |}.

(** The whole message in one call where [import mimetools] succeeds: one
    delivery, [200 OK], closed. *)
Lemma received_whole :
  @data_received Python2 msg fresh =
  Returned tt
    (mk {| sent := [(body, subscriber_id)] |}
        (status_written t0 (b "200 OK")) body BODY
        (Some subscriber_id) (Z.of_nat (List.length body))).
Proof.
  rewrite fresh_mk, data_received_eq. cbn [app].
  rewrite init_block_cut with (1 := msg_cut_line).
  rewrite request_line_tokens. cbn [bytes_eqb b list_byte_of_string map].
  cbn [Byte.eqb Ascii.ascii_of_byte Byte.to_bits Bool.eqb andb
       Byte.of_bits skipn app].
  change (bytes_eqb (b "POST") (b "POST")) with true. cbv iota.
  rewrite headers_block_cut with (1 := rest_cut_headers).
  rewrite length_header.
  destruct length_value_cons as (c & v & Hv).
  rewrite Hv. rewrite <- Hv, length_value.
  rewrite body_block_complete by lia.
  destruct subscriber_id as [|s0 s]; [contradiction|reflexivity].
Qed.

(** A proper prefix leaves the connection open. *)
Lemma received_prefix (p q : bytes) :
  msg = p ++ q -> q <> [] ->
  exists st, @data_received Python2 p fresh = Returned tt st /\
             closing (_transport st) = false.
Proof.
  intros Hmsg Hq.
  rewrite fresh_mk, data_received_eq. cbn [app].
  pose proof msg_cut_line as C1. rewrite Hmsg in C1.
  destruct (partition CRLF p) as [[l r]|] eqn:P1.
  - rewrite (partition_app _ _ q P1) in C1.
    injection C1 as -> Hrest.
    rewrite init_block_cut with (1 := P1).
    rewrite request_line_tokens.
    change (bytes_eqb (b "POST") (b "POST")) with true. cbv iota.
    change (skipn 1 (b "/" ++ subscriber_id)) with subscriber_id.
    pose proof rest_cut_headers as C2. rewrite <- Hrest in C2.
    destruct (partition CRLFCRLF r) as [[h r2]|] eqn:P2.
    + rewrite (partition_app _ _ q P2) in C2.
      injection C2 as -> Hbody.
      rewrite headers_block_cut with (1 := P2).
      rewrite length_header.
      destruct length_value_cons as (c & v & Hv).
      rewrite Hv. rewrite <- Hv, length_value.
      rewrite body_block_wait.
      * eexists; split; reflexivity.
      * rewrite <- Hbody, length_app.
        destruct q; [contradiction|simpl; lia].
    + rewrite headers_block_wait with (1 := P2).
      rewrite body_block_skip by discriminate.
      eexists; split; reflexivity.
  - rewrite init_block_wait with (1 := P1).
    rewrite headers_block_skip, body_block_skip by discriminate.
    eexists; split; reflexivity.
Qed.

(** The state every chunking ends in: the delivery made, the transport
    closed, and [connection_lost] called. *)
Let final : NotificationProtocol :=
  {| _factory := {| sent := [(body, subscriber_id)] |};
     _transport := status_written t0 (b "200 OK");
     _data := None; _state := BODY; _subscriber_id := None;
     _length := 0 |}.

Lemma feed_from_prefix (chunks : list bytes) :
  forall (p : bytes) (st : NotificationProtocol),
    p ++ List.concat chunks = msg ->
    @data_received Python2 p fresh = Returned tt st ->
    closing (_transport st) = false ->
    @feed Python2 chunks st = Returned tt final.
Proof.
  induction chunks as [|c chunks IH]; intros p st Hcat Hp Hopen.
  - simpl in Hcat. rewrite app_nil_r in Hcat. subst p.
    rewrite received_whole in Hp. injection Hp as <-. discriminate Hopen.
  - rewrite feed_cons, (data_received_resume _ c Hp Hopen).
    cbn [List.concat] in Hcat. rewrite app_assoc in Hcat.
    destruct (List.concat chunks) as [|q0 q] eqn:Hq.
    + rewrite app_nil_r in Hcat. rewrite Hcat, received_whole.
      reflexivity.
    + destruct (received_prefix (p ++ c) (q := q0 :: q))
        as (st' & Hst' & Hopen'); [now symmetry|discriminate|].
      rewrite Hst', Hopen'.
      now apply IH with (p := p ++ c).
Qed.

Lemma feed_chunks (chunks : list bytes) :
  List.concat chunks = msg -> @feed Python2 chunks fresh = Returned tt final.
Proof.
  intros Hcat. apply feed_from_prefix with (p := []); auto.
Qed.

(** After [ImportError] the same message gets as far as the blank line:
    [Message(...)] raises with the body as the buffer. *)
Lemma received_whole_fallback (repr : bytes -> bytes) :
  @data_received (Python3 repr) msg fresh =
  Raised TypeError (mk f0 t0 body HEADERS (Some subscriber_id) 0).
Proof.
  rewrite fresh_mk, data_received_eq. cbn [app].
  rewrite init_block_cut with (1 := msg_cut_line).
  rewrite request_line_tokens.
  change (bytes_eqb (b "POST") (b "POST")) with true. cbv iota.
  change (skipn 1 (b "/" ++ subscriber_id)) with subscriber_id.
  rewrite headers_block_cut with (1 := rest_cut_headers).
  reflexivity.
Qed.

(** A prefix is taken in silence, or it holds the blank line and
    [Message(...)] raises; either way nothing is written or delivered. *)
Lemma received_prefix_fallback (repr : bytes -> bytes) (p q : bytes) :
  msg = p ++ q ->
  exists st,
    (@data_received (Python3 repr) p fresh = Returned tt st \/
     @data_received (Python3 repr) p fresh = Raised TypeError st) /\
    _factory st = f0 /\ _transport st = t0.
Proof.
  intros Hmsg.
  rewrite fresh_mk, data_received_eq. cbn [app].
  pose proof msg_cut_line as C1. rewrite Hmsg in C1.
  destruct (partition CRLF p) as [[l r]|] eqn:P1.
  - rewrite (partition_app _ _ q P1) in C1.
    injection C1 as -> Hrest.
    rewrite init_block_cut with (1 := P1).
    rewrite request_line_tokens.
    change (bytes_eqb (b "POST") (b "POST")) with true. cbv iota.
    destruct (partition CRLFCRLF r) as [[h r2]|] eqn:P2.
    + rewrite headers_block_cut with (1 := P2).
      eexists; split; [right; reflexivity|]. split; reflexivity.
    + rewrite headers_block_wait with (1 := P2).
      rewrite body_block_skip by discriminate.
      eexists; split; [left; reflexivity|]. split; reflexivity.
  - rewrite init_block_wait with (1 := P1).
    rewrite headers_block_skip, body_block_skip by discriminate.
    eexists; split; [left; reflexivity|]. split; reflexivity.
Qed.

Lemma feed_from_prefix_fallback (repr : bytes -> bytes)
      (chunks : list bytes) :
  forall (p : bytes) (st : NotificationProtocol),
    p ++ List.concat chunks = msg ->
    @data_received (Python3 repr) p fresh = Returned tt st ->
    closing (_transport st) = false ->
    exists st',
      @feed (Python3 repr) chunks st = Raised TypeError st' /\
      _factory st' = f0 /\ _transport st' = t0.
Proof.
  induction chunks as [|c chunks IH]; intros p st Hcat Hp Hopen.
  - simpl in Hcat. rewrite app_nil_r in Hcat. subst p.
    rewrite received_whole_fallback in Hp. discriminate Hp.
  - rewrite feed_cons, (data_received_resume _ c Hp Hopen).
    cbn [List.concat] in Hcat. rewrite app_assoc in Hcat.
    destruct (received_prefix_fallback repr (p ++ c) (List.concat chunks))
      as (st' & [Hst'|Hst'] & Hf & Ht); [now symmetry| |].
    + rewrite Hst', Ht. unfold t0 at 1. cbn [closing].
      apply IH with (p := p ++ c); [assumption|assumption|].
      now rewrite Ht.
    + rewrite Hst'. now exists st'.
Qed.

Lemma feed_chunks_fallback (repr : bytes -> bytes) (chunks : list bytes) :
  List.concat chunks = msg ->
  exists st',
    @feed (Python3 repr) chunks fresh = Raised TypeError st' /\
    _factory st' = f0 /\ _transport st' = t0.
Proof.
  intros Hcat.
  apply feed_from_prefix_fallback with (p := []); auto.
Qed.

End WellFormed.

(** ** The notification parser: scenarios and chunking *)

Section NotificationClaims.

Import Notification Wire.

Context {python : Interpreter}.

(** Where [import mimetools] succeeds, the bytes
    [POST /sub1 HTTP/1.1\r\nContent-Length: 5\r\n\r\nhello] delivered in
    one chunk are handled as intended: the factory receives the body
    [hello] for the subscriber [sub1], the status line [HTTP/1.0 200 OK]
    is written, and the transport is closed. *)
Lemma scenario_D_one_chunk :
  exists p, @data_received Python2 scenario_D fresh = Returned tt p /\
            delivered (b "hello") (b "sub1") p.
Proof.
  eexists. split; [vm_compute; reflexivity|].
  split; [reflexivity|split; reflexivity].
Qed.

(** C4. After [ImportError] the same bytes in one chunk are not delivered:
    [Message] is [MIMEMessage], the call [Message(io.BytesIO(headers))]
    raises [TypeError] out of [data_received] once the header block was
    cut off, and the protocol is left in the [HEADERS] phase with [hello]
    as its buffer: the factory received nothing, no status line was
    written and the transport is open. *)
Theorem scenario_D_without_mimetools (repr : bytes -> bytes) :
  @data_received (Python3 repr) scenario_D fresh =
  Raised TypeError
    (mk {| sent := [] |} {| written := []; closing := false |}
        (b "hello") HEADERS (Some (b "sub1")) 0).
Proof. vm_compute. reflexivity. Qed.

(** C5. A request line that does not split into three tokens is not
    answered: at the input [POST /sub1\r\n] the unpacking raises
    [ValueError] out of [data_received], after the line was taken off the
    buffer; nothing is written and the transport stays open. *)
Theorem two_token_request_line_raises :
  data_received (b "POST /sub1" ++ CRLF) fresh =
  Raised ValueError
    (mk {| sent := [] |} {| written := []; closing := false |}
        [] INIT None 0).
Proof. vm_compute. reflexivity. Qed.

(** X26. Where [import mimetools] succeeds, a well-formed notification, cut
    into chunks in any way, ends in the same state as when it is delivered
    at once, and in both cases the factory received exactly the body for
    the subscriber. *)
Lemma chunking_invariance (msg subscriber_id body : bytes)
      (chunks : list bytes) :
  well_formed msg subscriber_id body ->
  List.concat chunks = msg ->
  @feed Python2 chunks fresh = @feed Python2 [msg] fresh /\
  delivered body subscriber_id (final_state (@feed Python2 chunks fresh)).
Proof.
  intros (version & headers & value & -> & Hsub & Htok & Hver & Hvtok
          & Hend & Hget & Hint) Hcat.
  rewrite (feed_chunks Htok Hvtok Hver Hend Hget Hint Hsub chunks Hcat).
  rewrite (feed_chunks Htok Hvtok Hver Hend Hget Hint Hsub
             [request subscriber_id version headers body]);
    [|simpl; now rewrite app_nil_r].
  split; [reflexivity|].
  split; [reflexivity|split; reflexivity].
Qed.

Lemma scenario_D_well_formed :
  well_formed scenario_D (b "sub1") (b "hello").
Proof.
  exists (b "HTTP/1.1"), (b "Content-Length: 5"), (b "5").
  split; [reflexivity|].
  split; [discriminate|].
  split; [reflexivity|].
  split; [discriminate|].
  split; [reflexivity|].
  split; [reflexivity|].
  split; reflexivity.
Defined.

Lemma chunking_invariance_witness :
  well_formed scenario_D (b "sub1") (b "hello") /\
  List.concat (bytewise scenario_D) = scenario_D /\
  @feed Python2 (bytewise scenario_D) fresh = @feed Python2 [scenario_D] fresh
  /\
  delivered (b "hello") (b "sub1")
    (final_state (@feed Python2 (bytewise scenario_D) fresh)).
Proof.
  split; [exact scenario_D_well_formed|].
  split; [reflexivity|].
  apply (chunking_invariance (bytewise scenario_D) scenario_D_well_formed).
  reflexivity.
Defined.

(** C6. After [ImportError] no chunking of a well-formed notification
    hands anything to the factory: whether the bytes come at once, one by
    one or cut in any other way, [Message(io.BytesIO(headers))] raises
    [TypeError] out of the call of [data_received] that completes the
    header block, with nothing delivered, nothing written and the
    transport open. *)
Theorem chunks_without_mimetools (repr : bytes -> bytes)
        (msg subscriber_id body : bytes) (chunks : list bytes) :
  well_formed msg subscriber_id body ->
  List.concat chunks = msg ->
  exists p,
    @feed (Python3 repr) chunks fresh = Raised TypeError p /\
    sent (_factory p) = [] /\
    written (_transport p) = [] /\ closing (_transport p) = false.
Proof.
  intros (version & headers & value & -> & Hsub & Htok & Hver & Hvtok
          & Hend & Hget & Hint) Hcat.
  destruct (feed_chunks_fallback Htok Hvtok Hver Hend repr chunks Hcat)
    as (p & Hp & Hf & Ht).
  exists p. rewrite Hf, Ht. repeat split. exact Hp.
Qed.

Lemma chunks_without_mimetools_witness :
  well_formed scenario_D (b "sub1") (b "hello") /\
  List.concat (bytewise scenario_D) = scenario_D /\
  exists p,
    @feed (Python3 (fun x => x)) (bytewise scenario_D) fresh
    = Raised TypeError p /\
    sent (_factory p) = [] /\
    written (_transport p) = [] /\ closing (_transport p) = false.
Proof.
  split; [exact scenario_D_well_formed|].
  split; [reflexivity|].
  apply (chunks_without_mimetools (fun x => x) (bytewise scenario_D)
           scenario_D_well_formed).
  reflexivity.
Defined.

(** X8. A request line of three tokens whose verb is not [POST] is answered
    [405 Not Allowed] and the transport is closed. *)
Lemma other_verb_refused (line rest verb uri version : bytes) :
  Forall (fun c => c <> CR) line ->
  split_ws line = [verb; uri; version] ->
  bytes_eqb verb (b "POST") = false ->
  exists p, data_received (line ++ CRLF ++ rest) fresh = Returned tt p /\
            refused (b "405 Not Allowed") p.
Proof.
  intros Hline Htok Hverb.
  rewrite fresh_mk, data_received_eq. cbn [app].
  rewrite init_block_cut with (1 := partition_CRLF_no_CR rest Hline).
  rewrite Htok, Hverb.
  eexists. split; [reflexivity|].
  split; [reflexivity|split; reflexivity].
Qed.

(** X9. A header block without a [Content-Length] value.  Where
    [import mimetools] succeeds it is answered [400 Bad Request] and the
    transport is closed.  After [ImportError] it is not answered:
    [TypeError] leaves [data_received] with nothing written and the
    transport open. *)
Lemma missing_length_refused (line headers rest verb uri version : bytes) :
  Forall (fun c => c <> CR) line ->
  split_ws line = [verb; uri; version] ->
  bytes_eqb verb (b "POST") = true ->
  no_blank_line headers ->
  Mimetools.get (Mimetools.Message headers) (b "content-length") = None ->
  let msg := line ++ CRLF ++ headers ++ CRLFCRLF ++ rest in
  (exists p, @data_received Python2 msg fresh = Returned tt p /\
             refused (b "400 Bad Request") p) /\
  (forall repr,
      exists p, @data_received (Python3 repr) msg fresh = Raised TypeError p
                /\ sent (_factory p) = [] /\ written (_transport p) = []
                /\ closing (_transport p) = false).
Proof.
  intros Hline Htok Hverb Hend Hget msg. subst msg. split.
  - rewrite fresh_mk, data_received_eq. cbn [app].
    rewrite init_block_cut with (1 := partition_CRLF_no_CR _ Hline).
    rewrite Htok, Hverb.
    rewrite headers_block_cut with (1 := partition_first _ rest Hend).
    rewrite Hget.
    eexists. split; [reflexivity|].
    split; [reflexivity|split; reflexivity].
  - intros repr.
    rewrite fresh_mk, data_received_eq. cbn [app].
    rewrite init_block_cut with (1 := partition_CRLF_no_CR _ Hline).
    rewrite Htok, Hverb.
    rewrite headers_block_cut with (1 := partition_first _ rest Hend).
    eexists. split; [reflexivity|]. repeat split.
Qed.

(** A request line that does not split into three tokens: the unpacking
    raises, and the protocol neither answers nor closes. *)
Lemma other_token_count_raises (line rest : bytes) :
  Forall (fun c => c <> CR) line ->
  List.length (split_ws line) <> 3 ->
  exists p,
    data_received (line ++ CRLF ++ rest) fresh = Raised ValueError p /\
    written (_transport p) = [] /\ closing (_transport p) = false /\
    sent (_factory p) = [].
Proof.
  intros Hline Hcount.
  rewrite fresh_mk, data_received_eq. cbn [app].
  rewrite init_block_cut with (1 := partition_CRLF_no_CR rest Hline).
  destruct (split_ws line) as [|verb [|uri [|version [|x l]]]];
    try (eexists; repeat split; reflexivity).
  now contradiction Hcount.
Qed.

(** When the body is longer than its [Content-Length] says, what the
    factory receives where [import mimetools] succeeds depends on the
    chunks: everything buffered when the
    length is first reached. *)
Lemma overlong_body_follows_chunks :
  let msg := b "POST /sub1 HTTP/1.1" ++ CRLF ++ b "Content-Length: 2"
               ++ CRLFCRLF ++ b "hello" in
  sent (_factory (final_state (@feed Python2 [msg] fresh)))
  = [(b "hello", b "sub1")] /\
  sent (_factory (final_state (@feed Python2 (bytewise msg) fresh)))
  = [(b "he", b "sub1")].
Proof. split; vm_compute; reflexivity. Qed.

End NotificationClaims.

(** ** The session engine *)

Section MessagingClaims.

Import Messaging.
Local Open Scope string_scope.
Local Open Scope Z_scope.

Context {handler : Handler} {libs : Libs}.

Lemma send_response_eq (resp : Response) (w : World) :
  _send_response resp w =
  Returned tt (sends w (sendMessage (json_dumps (get_response resp)) false)).
Proof. reflexivity. Qed.

(** X25. A text frame on which [json.loads] raises [ValueError] is
    answered with a 400 response whose body carries the decoder's message;
    the call returns normally and changes nothing but the outgoing frames;
    the same frame sent twice gets the same reply twice, and the session
    is as before. *)
Lemma invalid_json_answered (payload ex : string) (w : World) :
  json_loads payload = Raises ValueError ex ->
  let resp := create_response 400 (JObj [("error", JStr ex)]) None in
  let reply := sendMessage (json_dumps (get_response resp)) false in
  replied resp w (onMessage payload false w) /\
  bind (onMessage payload false) (fun _ => onMessage payload false) w =
  Returned tt (sends (sends w reply) reply) /\
  self (sends (sends w reply) reply) = self w.
Proof.
  intros H. unfold replied, bind, onMessage. rewrite H.
  repeat split.
Qed.

(** C7. A text frame on which [json.loads] raises an exception that is not
    a [ValueError] (the [RecursionError] of a deeply nested text) fails to
    decode and is not answered: [except ValueError] does not catch it, the
    exception leaves [onMessage], no 400 reply is sent and nothing else
    changes. *)
Theorem decoder_error_escapes (payload message : string) (e : exn)
        (w : World) :
  json_loads payload = Raises e message ->
  e <> ValueError ->
  onMessage payload false w = Raised e w /\
  wire (final_state (onMessage payload false w)) = wire w.
Proof.
  intros H He. unfold onMessage. rewrite H.
  destruct e; try contradiction; split; reflexivity.
Qed.

Lemma action_test (o : list (string * json)) :
  is_str "authenticate"
    (match lookup o "action" with Some v => v | None => JNull end)
  = action_is_authenticate (JObj o).
Proof. cbn. destruct (lookup o "action"); reflexivity. Qed.

Lemma onMessage_authorised (text : string) (o : list (string * json))
      (w : World) :
  json_loads text = Decoded (JObj o) ->
  validate_request (JObj o) (create_request (JObj o)) = None ->
  _auth_strategy (self w) = None \/ _authentified (self w) = true ->
  onMessage text false w =
  if action_is_authenticate (JObj o) then _authenticate (JObj o) w
  else _send_response (process_request (create_request (JObj o)) (self w)) w.
Proof.
  intros Hloads Hvalid Hauth.
  unfold onMessage. rewrite Hloads, Hvalid.
  unfold bind at 1. unfold get at 1. cbv beta iota.
  assert ((match _auth_strategy (self w) with
           | Some _ => true | None => false end)
          && negb (_authentified (self w)) = false)%bool as ->.
  { destruct Hauth as [-> | ->]; [reflexivity|].
    now rewrite andb_false_r. }
  unfold bind at 1, py_get, ret. rewrite action_test.
  destruct (action_is_authenticate (JObj o)); reflexivity.
Qed.

(** C2, amended. A valid frame received when no authentication strategy
    is configured or the session is authenticated goes to
    [process_request] with the session as context, and the result is the
    reply, for every action other than ["authenticate"]; an
    ["authenticate"] frame is handed to [_authenticate] instead. *)
Theorem authorised_frame_routed (text : string) (payload : json) (w : World) :
  json_loads text = Decoded payload ->
  structurally_valid payload ->
  _auth_strategy (self w) = None \/ _authentified (self w) = true ->
  (action_is_authenticate payload = false ->
   dispatched payload w (onMessage text false w)) /\
  (action_is_authenticate payload = true ->
   onMessage text false w = _authenticate payload w).
Proof.
  intros Hloads [(o & -> & _) Hvalid] Hauth.
  rewrite onMessage_authorised with (1 := Hloads) (2 := Hvalid) (3 := Hauth).
  split; intros ->; reflexivity.
Qed.

Lemma has_signature_test (o : list (string * json)) (w : World) :
  wire_frame (JObj o) ->
  (headers <- py_get_default (JObj o) "headers" (JObj []) ;;
   py_in "URL-Signature" headers) w
  = Returned (has_signature (JObj o)) w.
Proof.
  intros (o' & [= <-] & [Hh | (h & Hh)]);
    unfold bind, py_get_default, ret, has_signature; rewrite Hh;
    reflexivity.
Qed.

Lemma onMessage_unauthenticated (text : string) (o : list (string * json))
      (w : World) (strategy : AuthStrategy) :
  json_loads text = Decoded (JObj o) ->
  structurally_valid (JObj o) ->
  _auth_strategy (self w) = Some strategy ->
  _authentified (self w) = false ->
  _auth_app (self w) <> None \/ action_is_authenticate (JObj o) = false ->
  onMessage text false w =
  if has_signature (JObj o) && verify_signature (secret_key (self w)) (JObj o)
  then _send_response (process_request (create_request (JObj o)) (self w)) w
  else _send_response
         (create_response 403 (JObj [("error", JStr "Not authentified.")])
            (Some (create_request (JObj o)))) w.
Proof.
  intros Hloads [Hframe Hvalid] Hstrategy Hauth Hsigned.
  pose proof (@has_signature_test o w Hframe) as Hsig.
  unfold onMessage. rewrite Hloads, Hvalid.
  unfold bind at 1. unfold get at 1. cbv beta iota.
  rewrite Hstrategy, Hauth. cbn [negb andb].
  assert (match _auth_app (self w) with
          | Some _ => ret true
          | None => action <- py_get (JObj o) "action" ;;
                    ret (negb (is_str "authenticate" action))
          end w = Returned true w) as Hs.
  { destruct (_auth_app (self w)) as [a|] eqn:Happ; [reflexivity|].
    destruct Hsigned as [Hc | Ha]; [congruence|].
    unfold bind, py_get, ret. now rewrite action_test, Ha. }
  unfold bind at 1. rewrite Hs.
  unfold bind at 1. unfold bind in Hsig. 
  destruct (py_get_default (JObj o) "headers" (JObj []) w) as [hd w1|e w1];
    [|discriminate Hsig].
  unfold bind at 1. rewrite Hsig.
  destruct (has_signature (JObj o)); [|reflexivity].
  destruct (verify_signature _ _); reflexivity.
Qed.

(** Outside the wire format: when [headers] is [null] the membership test
    itself raises [TypeError], and no reply is sent. *)
Lemma null_headers_raise (text : string) (o : list (string * json))
      (w : World) (strategy : AuthStrategy) :
  json_loads text = Decoded (JObj o) ->
  validate_request (JObj o) (create_request (JObj o)) = None ->
  _auth_strategy (self w) = Some strategy ->
  _authentified (self w) = false ->
  action_is_authenticate (JObj o) = false ->
  lookup o "headers" = Some JNull ->
  onMessage text false w = Raised TypeError w.
Proof.
  intros Hloads Hvalid Hstrategy Hauth Ha Hh.
  unfold onMessage. rewrite Hloads, Hvalid.
  unfold bind at 1. unfold get at 1. cbv beta iota.
  rewrite Hstrategy, Hauth. cbn [negb andb].
  unfold bind, py_get, py_get_default, py_in, ret, raise.
  rewrite action_test, Ha, Hh.
  destruct (_auth_app (self w)); reflexivity.
Qed.

(** C8. A valid frame received while authentication is required and the
    session is not authenticated, with an attempt pending or an action
    other than ["authenticate"]: without an [URL-Signature] header the
    reply is 403 with the body [{"error": "Not authentified."}]; with the
    header and a signature that verifies against the listener's key the
    frame is dispatched; with a signature that does not verify the reply
    is the same 403. *)
Theorem unauthenticated_frame_needs_signature
        (text : string) (payload : json) (w : World)
        (strategy : AuthStrategy) :
  json_loads text = Decoded payload ->
  structurally_valid payload ->
  _auth_strategy (self w) = Some strategy ->
  _authentified (self w) = false ->
  _auth_app (self w) <> None \/ action_is_authenticate payload = false ->
  let refusal :=
    create_response 403 (JObj [("error", JStr "Not authentified.")])
      (Some (create_request payload)) in
  (has_signature payload = false ->
   replied refusal w (onMessage text false w)) /\
  (has_signature payload = true ->
   verify_signature (secret_key (self w)) payload = true ->
   dispatched payload w (onMessage text false w)) /\
  (has_signature payload = true ->
   verify_signature (secret_key (self w)) payload = false ->
   replied refusal w (onMessage text false w)).
Proof.
  intros Hloads Hvalid Hstrategy Hauth Hsigned.
  destruct Hvalid as [(o & -> & Hh) Hvalid].
  assert (structurally_valid (JObj o)) as Hsv.
  { split; [exists o; auto|assumption]. }
  rewrite onMessage_unauthenticated
    with (1 := Hloads) (2 := Hsv) (3 := Hstrategy) (4 := Hauth)
         (5 := Hsigned).
  repeat split.
  - intros ->. reflexivity.
  - intros -> ->. reflexivity.
  - intros -> ->. reflexivity.
Qed.

Lemma cancel_at_length (l : list Timer) (h : Handle) :
  List.length (cancel_at l h) = List.length l.
Proof.
  revert h; induction l as [|t l IH]; intros [|h]; simpl; auto.
Qed.

(** [cancel()] marks the timer of the handle, and only that one. *)
Lemma cancel_at_cancelled (l : list Timer) (h : Handle) (t : Timer) :
  nth_error l h = Some t ->
  nth_error (cancel_at l h) h =
  Some {| delay := delay t; callback := callback t;
          cancelled := true; ran := ran t |}.
Proof.
  revert h; induction l as [|x l IH]; intros [|h] H; try discriminate H.
  - injection H as ->. reflexivity.
  - cbn [cancel_at nth_error]. now apply IH.
Qed.

Lemma cancel_at_live (l : list Timer) (h : Handle) :
  live (cancel_at l h) h = false.
Proof.
  unfold live. destruct (nth_error l h) as [t|] eqn:E.
  - now rewrite cancel_at_cancelled with (1 := E).
  - apply nth_error_None in E.
    assert (nth_error (cancel_at l h) h = None) as ->; [|reflexivity].
    apply nth_error_None. now rewrite cancel_at_length.
Qed.

Lemma auth_response_200 (w : World) :
  _auth_response "200 OK" [] w =
  _send_response
    (create_response 200 (JObj [("message", JStr "Authentified.")])
       (Some (create_request (JObj [("action", JStr "authenticate")])))) w.
Proof. reflexivity. Qed.

(** With a readable expiry in the environment, [_auth_start] ends by
    calling [start_response('200 OK', [])] on the re-armed session. *)
Lemma auth_start_rearms (env : json) (expire_time : Z)
      (start_response : string -> list json -> M World unit) (w : World) :
  token_expiry env = Some expire_time ->
  _auth_start env start_response w =
  start_response "200 OK" [] (rearmed w expire_time).
Proof.
  intros H. unfold token_expiry in H.
  destruct env as [ | | | | |e]; try discriminate H.
  destruct (lookup e "keystone.token_info") as [[ | | | | |i]|] eqn:E1;
    try discriminate H.
  destruct (lookup i "token") as [[ | | | | |t]|] eqn:E2;
    try discriminate H.
  destruct (lookup t "expires_at") as [x|] eqn:E3; try discriminate H.
  destruct w as [[pid strat key au app hd] lp nw wr ac].
  unfold _auth_start, bind, py_getitem, rearmed.
  cbn [set_authentified set_auth_app set_self modify self].
  rewrite E1. cbn [ret]. rewrite E2. cbn [ret]. rewrite E3. cbn [ret].
  rewrite H.
  destruct hd as [h|]; cbn; rewrite ?cancel_at_length; reflexivity.
Qed.

(** A live timer runs [_deauthenticate], once. *)
Lemma fire_live (h : Handle) (w : World) :
  live (_loop w) h = true ->
  fire h w = _deauthenticate (final_state (set_loop (mark_ran (_loop w) h) w)).
Proof.
  intros H. unfold fire, bind, get. rewrite H.
  unfold live in H.
  destruct (nth_error (_loop w) h) as [[dl [] cn rn]|]; [|discriminate H].
  reflexivity.
Qed.

Lemma cancel_at_other (l : list Timer) (h i : Handle) :
  i <> h -> nth_error (cancel_at l h) i = nth_error l i.
Proof.
  revert h i; induction l as [|x l IH]; intros [|h] [|i] H;
    try reflexivity; try congruence.
  cbn [cancel_at nth_error]. apply IH. congruence.
Qed.

(** C9. When the authenticator accepts, [_auth_start] returns with the
    session authenticated and the pending application cleared; the timer
    of the handle the session held is cancelled and every other timer of
    the loop is as before; one new timer, neither cancelled nor run, is
    scheduled for [expiry - now] whatever the sign of that delay, and the
    session holds its handle; the reply 200 with the body
    [{"message": "Authentified."}] to an ["authenticate"] request goes
    out. *)
Theorem authentication_accepted (env : json) (expire_time : Z) (w : World) :
  token_expiry env = Some expire_time ->
  let w' := final_state (_auth_start env _auth_response w) in
  let welcome :=
    create_response 200 (JObj [("message", JStr "Authentified.")])
      (Some (create_request (JObj [("action", JStr "authenticate")]))) in
  _auth_start env _auth_response w = Returned tt w' /\
  self w' = {| proto_id := proto_id (self w);
               _auth_strategy := _auth_strategy (self w);
               secret_key := secret_key (self w);
               _authentified := true;
               _auth_app := None;
               _deauth_handle := Some (List.length (_loop w)) |} /\
  (forall (h : Handle) (t : Timer),
      _deauth_handle (self w) = Some h ->
      nth_error (_loop w) h = Some t ->
      nth_error (_loop w') h =
      Some {| delay := delay t; callback := callback t;
              cancelled := true; ran := ran t |}) /\
  (forall i : Handle,
      (i < List.length (_loop w))%nat ->
      _deauth_handle (self w) <> Some i ->
      nth_error (_loop w') i = nth_error (_loop w) i) /\
  List.length (_loop w') = S (List.length (_loop w)) /\
  nth_error (_loop w') (List.length (_loop w)) =
  Some {| delay := expire_time - now w; callback := deauthenticate_cb;
          cancelled := false; ran := false |} /\
  wire w' =
  (wire w ++ [sendMessage (json_dumps (get_response welcome)) false])%list /\
  now w' = now w /\ auth_calls w' = auth_calls w.
Proof.
  intros H w' welcome. subst w'.
  rewrite auth_start_rearms with (1 := H).
  rewrite auth_response_200, send_response_eq.
  cbn [final_state sends rearmed self _loop wire now auth_calls].
  split; [reflexivity|]. split; [reflexivity|].
  split; [|split; [|split; [|split; [|repeat split]]]].
  - intros h t Hh Ht. rewrite Hh.
    assert (h < List.length (_loop w))%nat as Hlt
      by (apply nth_error_Some; congruence).
    rewrite nth_error_app1 by now rewrite cancel_at_length.
    now apply cancel_at_cancelled.
  - intros i Hi Hne.
    destruct (_deauth_handle (self w)) as [h|].
    + rewrite nth_error_app1 by now rewrite cancel_at_length.
      apply cancel_at_other. congruence.
    + now rewrite nth_error_app1.
  - rewrite length_app. cbn [List.length].
    destruct (_deauth_handle (self w)); rewrite ?cancel_at_length; lia.
  - assert (List.length (match _deauth_handle (self w) with
                         | Some h => cancel_at (_loop w) h
                         | None => _loop w
                         end) = List.length (_loop w)) as Hlen
      by (destruct (_deauth_handle (self w));
          now rewrite ?cancel_at_length).
    rewrite nth_error_app2 by lia.
    rewrite Hlen, Nat.sub_diag. reflexivity.
Qed.

(** C3, amended. When a live expiry timer fires, the session becomes
    unauthenticated and the connection is closed with code 4003 and the
    reason [Authentication expired.]; the timer handle is left as it
    was. *)
Theorem expiry_deauthenticates (h : Handle) (w : World) :
  live (_loop w) h = true ->
  fire h w =
  Returned tt
    {| self := {| proto_id := proto_id (self w);
                  _auth_strategy := _auth_strategy (self w);
                  secret_key := secret_key (self w);
                  _authentified := false;
                  _auth_app := _auth_app (self w);
                  _deauth_handle := _deauth_handle (self w) |};
       _loop := mark_ran (_loop w) h;
       now := now w;
       wire := wire w ++ [sendClose 4003 "Authentication expired."];
       auth_calls := auth_calls w |}.
Proof.
  intros H. rewrite fire_live with (1 := H).
  destruct w as [[pid strat key au app hd] lp nw wr ac].
  reflexivity.
Qed.

Lemma timer_kept_refl (w : World) : timer_kept w w.
Proof. repeat split. Qed.

Lemma timer_kept_trans (w1 w2 w3 : World) :
  timer_kept w1 w2 -> timer_kept w2 w3 -> timer_kept w1 w3.
Proof.
  intros (A1 & H1 & L1) (A2 & H2 & L2).
  repeat split; congruence.
Qed.

Lemma keeps_bind {A B : Type} (m : M World A) (k : A -> M World B) :
  keeps_timer m -> (forall a, keeps_timer (k a)) -> keeps_timer (bind m k).
Proof.
  intros Hm Hk w. unfold bind. specialize (Hm w).
  destruct (m w) as [a s|e s]; [|exact Hm].
  eapply timer_kept_trans; [exact Hm|apply Hk].
Qed.

Lemma keeps_ret {A : Type} (a : A) : keeps_timer (ret a).
Proof. intros w. apply timer_kept_refl. Qed.

Lemma keeps_raise {A : Type} (e : exn) : keeps_timer (@raise World A e).
Proof. intros w. apply timer_kept_refl. Qed.

Lemma keeps_get : keeps_timer (@get World).
Proof. intros w. apply timer_kept_refl. Qed.

Lemma keeps_emit (x : Sent) : keeps_timer (emit x).
Proof. intros w. repeat split. Qed.

Lemma keeps_call_auth_app (a : AuthApp) (env : list (string * json)) :
  keeps_timer (call_auth_app a env).
Proof. intros w. repeat split. Qed.

Lemma keeps_set_auth_app (a : option AuthApp) :
  keeps_timer (set_auth_app a).
Proof. intros w. repeat split. Qed.

Lemma keeps_py_get (d : json) (k : string) : keeps_timer (py_get d k).
Proof. destruct d; intros w; apply timer_kept_refl. Qed.

Lemma keeps_py_get_default (d : json) (k : string) (v : json) :
  keeps_timer (py_get_default d k v).
Proof. destruct d; intros w; apply timer_kept_refl. Qed.

Lemma keeps_py_in (k : string) (c : json) : keeps_timer (py_in k c).
Proof. destruct c; intros w; apply timer_kept_refl. Qed.

Lemma keeps_py_items (d : json) : keeps_timer (py_items d).
Proof. destruct d; intros w; apply timer_kept_refl. Qed.

Ltac keeps :=
  repeat first
    [ apply keeps_ret | apply keeps_raise | apply keeps_get
    | apply keeps_emit | apply keeps_call_auth_app
    | apply keeps_set_auth_app | apply keeps_py_get
    | apply keeps_py_get_default | apply keeps_py_in | apply keeps_py_items
    | apply keeps_bind; [|intros]
    | match goal with
      | |- keeps_timer (match ?x with _ => _ end) => destruct x
      end ].

Lemma keeps_send_response (resp : Response) :
  keeps_timer (_send_response resp).
Proof. unfold _send_response. keeps. Qed.

Lemma keeps_authenticate (payload : json) :
  keeps_timer (_authenticate payload).
Proof. unfold _authenticate. keeps. Qed.

Lemma keeps_onMessage (payload : string) (isBinary : bool) :
  keeps_timer (onMessage payload isBinary).
Proof.
  unfold onMessage. cbv zeta.
  keeps; first [apply keeps_send_response | apply keeps_authenticate].
Qed.

Lemma keeps_auth_response (status : string) (message : list json) :
  keeps_timer (_auth_response status message).
Proof.
  unfold _auth_response. cbv zeta. keeps; apply keeps_send_response.
Qed.

Lemma timer_armed_kept (w w' : World) :
  timer_kept w w' -> timer_armed w -> timer_armed w'.
Proof.
  intros (A & H & L) Hw. unfold timer_armed. rewrite A, H, L. exact Hw.
Qed.

Lemma live_appended (l : list Timer) (d : Z) (n : nat) :
  n = List.length l ->
  live (l ++ [{| delay := d; callback := deauthenticate_cb;
                 cancelled := false; ran := false |}]) n = true.
Proof.
  intros ->. unfold live.
  rewrite nth_error_app2, Nat.sub_diag by lia. reflexivity.
Qed.

Lemma step_timer_armed (w : World) (e : event) :
  honours_contract e -> timer_armed w -> timer_armed (step w e).
Proof.
  intros He Hw. unfold step.
  destruct e as [payload isBinary|env|status|h|dt|wasClean code reason];
    cbn [handle_event].
  - apply timer_armed_kept with (1 := keeps_onMessage payload isBinary w).
    exact Hw.
  - cbn in He. destruct (token_expiry env) as [t|] eqn:Ht; [|congruence].
    rewrite auth_start_rearms with (1 := Ht).
    apply timer_armed_kept
      with (1 := keeps_auth_response "200 OK" [] (rearmed w t)).
    intros _. eexists. split; [reflexivity|].
    apply live_appended.
    destruct (_deauth_handle (self w)); now rewrite ?cancel_at_length.
  - apply timer_armed_kept with (1 := keeps_auth_response status [] w).
    exact Hw.
  - destruct (live (_loop w) h) eqn:Hl.
    + rewrite fire_live with (1 := Hl).
      intros H. discriminate H.
    + unfold fire, bind, get. rewrite Hl. exact Hw.
  - exact Hw.
  - exact Hw.
Qed.

Lemma run_timer_armed (events : list event) (w : World) :
  Forall honours_contract events -> timer_armed w ->
  timer_armed (run events w).
Proof.
  intros Hev. revert w. induction Hev as [|e events He _ IH]; intros w Hw.
  - exact Hw.
  - cbn [run fold_left]. apply IH. now apply step_timer_armed.
Qed.

(** C1, amended. Whatever happens on a connection whose authenticator
    honours its contract, an authenticated session holds the handle of a
    live timer; and [onClose] changes nothing, the timer included. *)
Theorem authenticated_session_has_live_timer
        (proto : string) (strategy : option AuthStrategy) (key : string)
        (t0 : Z) (events : list event) :
  Forall honours_contract events ->
  let w := run events (connect proto strategy key t0) in
  (_authentified (self w) = true ->
   exists h, _deauth_handle (self w) = Some h /\ live (_loop w) h = true) /\
  (forall wasClean code reason,
      step w (Closed wasClean code reason) = w).
Proof.
  intros Hev w. split; [|reflexivity].
  apply run_timer_armed; [assumption|].
  intros H. discriminate H.
Qed.

(** On a listener without authentication strategy [_authenticate] calls
    [None]: [TypeError], and nothing is assigned. *)
Lemma authenticate_without_strategy (payload : json) (w : World) :
  _auth_strategy (self w) = None ->
  _authenticate payload w = Raised TypeError w.
Proof.
  intros Hs. unfold _authenticate, bind, get. now rewrite Hs.
Qed.

Lemma authenticate_eq_without_headers (o : list (string * json)) (w : World)
      (strategy : AuthStrategy) :
  lookup o "headers" = None ->
  _auth_strategy (self w) = Some strategy ->
  _authenticate (JObj o) w =
  Raised AttributeError
    (final_state (set_auth_app (Some {| wraps := strategy |}) w)).
Proof.
  intros Hh Hs. unfold _authenticate, bind, get, py_get, py_items, ret.
  rewrite Hs. cbn. rewrite Hh. reflexivity.
Qed.

Lemma onMessage_login (text : string) (o : list (string * json))
      (w : World) (strategy : AuthStrategy) :
  json_loads text = Decoded (JObj o) ->
  validate_request (JObj o) (create_request (JObj o)) = None ->
  action_is_authenticate (JObj o) = true ->
  _auth_strategy (self w) = Some strategy ->
  _authentified (self w) = false ->
  _auth_app (self w) = None ->
  onMessage text false w = _authenticate (JObj o) w.
Proof.
  intros Hloads Hvalid Ha Hs Hau Happ.
  unfold onMessage. rewrite Hloads, Hvalid.
  unfold bind at 1. unfold get at 1. cbv beta iota.
  rewrite Hs, Hau, Happ. cbn [negb andb].
  unfold bind, py_get, ret. now rewrite action_test, Ha.
Qed.

(** C10. A valid ["authenticate"] frame without a [headers] key, routed
    to [_authenticate] on a listener with an authentication strategy:
    [payload.get('headers')] is [None], [.items()] raises
    [AttributeError] out of [onMessage]; nothing is sent, the
    authenticator is not called, and [_auth_app] stays assigned. *)
Theorem authenticate_without_headers_raises
        (text : string) (o : list (string * json)) (w : World)
        (strategy : AuthStrategy) :
  json_loads text = Decoded (JObj o) ->
  structurally_valid (JObj o) ->
  action_is_authenticate (JObj o) = true ->
  lookup o "headers" = None ->
  _auth_strategy (self w) = Some strategy ->
  _authentified (self w) = true \/ _auth_app (self w) = None ->
  onMessage text false w =
  Raised AttributeError
    (final_state (set_auth_app (Some {| wraps := strategy |}) w)).
Proof.
  intros Hloads [_ Hvalid] Ha Hh Hs Hroute.
  rewrite <- authenticate_eq_without_headers with (1 := Hh) (2 := Hs).
  destruct (_authentified (self w)) eqn:Hau.
  - rewrite onMessage_authorised with (1 := Hloads) (2 := Hvalid);
      [now rewrite Ha|now right].
  - destruct Hroute as [Hc | Happ]; [discriminate Hc|].
    now apply onMessage_login with (strategy := strategy).
Qed.

End MessagingClaims.

Section Scenarios.

Import Messaging Fixture.
Local Open Scope string_scope.
Local Open Scope Z_scope.

Lemma login_valid : structurally_valid login.
Proof.
  split; [|reflexivity].
  eexists. split; [reflexivity|]. right. eexists. reflexivity.
Defined.

(** C2 as stated fails: an ["authenticate"] frame on an authenticated
    session is not dispatched to [process_request]. *)
Lemma authenticate_frame_not_dispatched :
  json_loads (dumps login) = Decoded login /\
  structurally_valid login /\
  _authentified (self logged_in) = true /\
  ~ dispatched login logged_in (onMessage (dumps login) false logged_in).
Proof.
  split; [reflexivity|]. split; [exact login_valid|].
  split; [reflexivity|].
  unfold dispatched, replied. intros H. vm_compute in H. discriminate H.
Qed.

(** C3 as stated fails: after the timer fired the handle is still set. *)
Lemma expiry_keeps_handle :
  live (_loop logged_in) 0%nat = true /\
  let w := final_state (fire 0%nat logged_in) in
  _authentified (self w) = false /\
  _deauth_handle (self w) = Some 0%nat /\
  ~ _deauth_handle (self w) = None.
Proof.
  split; [reflexivity|].
  split; [reflexivity|]. split; [reflexivity|].
  vm_compute. discriminate.
Qed.

(** C1 as stated fails: after expiry the handle is set on an
    unauthenticated session; and after a close the timer is still live,
    and its callback still sends the close frame. *)
Lemma timer_outlives_session :
  (let w := run [TimerDue 0%nat] logged_in in
   ~ (_deauth_handle (self w) <> None <-> _authentified (self w) = true)) /\
  (let w := run [Closed true 1000 "going away"] logged_in in
   live (_loop w) 0%nat = true /\
   wire (run [TimerDue 0%nat] w)
   = (wire w ++ [sendClose 4003 "Authentication expired."])%list).
Proof.
  split.
  - intros w [H _]. assert (_authentified (self w) = true) as C.
    { apply H. vm_compute. discriminate. }
    vm_compute in C. discriminate C.
  - split; reflexivity.
Qed.

Lemma queue_list_valid : structurally_valid queue_list.
Proof.
  split; [|reflexivity].
  eexists. split; [reflexivity|]. right. eexists. reflexivity.
Defined.

Lemma signed_queue_list_valid : structurally_valid signed_queue_list.
Proof.
  split; [|reflexivity].
  eexists. split; [reflexivity|]. right. eexists. reflexivity.
Defined.

Lemma login_without_headers_valid :
  structurally_valid login_without_headers.
Proof.
  split; [|reflexivity].
  eexists. split; [reflexivity|]. left. reflexivity.
Defined.

Lemma invalid_json_answered_witness :
  json_loads "{not json" = Raises ValueError "No JSON object could be decoded"
  /\
  let resp :=
    create_response 400
      (JObj [("error", JStr "No JSON object could be decoded")]) None in
  let reply := sendMessage (json_dumps (get_response resp)) false in
  replied resp guarded (onMessage "{not json" false guarded) /\
  bind (onMessage "{not json" false)
       (fun _ => onMessage "{not json" false) guarded
  = Returned tt (sends (sends guarded reply) reply) /\
  self (sends (sends guarded reply) reply) = self guarded.
Proof.
  split; [reflexivity|].
  apply invalid_json_answered. reflexivity.
Defined.

(** Three thousand opening brackets exhaust the decoder's stack. *)
Lemma decoder_error_escapes_witness :
  json_loads deep_frame
  = Raises RecursionError "maximum recursion depth exceeded" /\
  RecursionError <> ValueError /\
  onMessage deep_frame false guarded = Raised RecursionError guarded /\
  wire (final_state (onMessage deep_frame false guarded)) = wire guarded.
Proof.
  split; [vm_compute; reflexivity|]. split; [discriminate|].
  apply (@decoder_error_escapes handler libs deep_frame
           "maximum recursion depth exceeded" RecursionError guarded);
    [vm_compute; reflexivity|discriminate].
Defined.

Lemma authorised_frame_routed_witness :
  json_loads (dumps queue_list) = Decoded queue_list /\
  structurally_valid queue_list /\
  (_auth_strategy (self logged_in) = None \/
   _authentified (self logged_in) = true) /\
  (action_is_authenticate queue_list = false ->
   dispatched queue_list logged_in
     (onMessage (dumps queue_list) false logged_in)) /\
  (action_is_authenticate queue_list = true ->
   onMessage (dumps queue_list) false logged_in
   = _authenticate queue_list logged_in).
Proof.
  split; [reflexivity|]. split; [exact queue_list_valid|].
  split; [right; reflexivity|].
  apply authorised_frame_routed;
    [reflexivity|exact queue_list_valid|right; reflexivity].
Defined.

Lemma unauthenticated_frame_needs_signature_witness :
  json_loads (dumps signed_queue_list) = Decoded signed_queue_list /\
  structurally_valid signed_queue_list /\
  _auth_strategy (self guarded) = Some "keystone" /\
  _authentified (self guarded) = false /\
  (_auth_app (self guarded) <> None \/
   action_is_authenticate signed_queue_list = false) /\
  let o := onMessage (dumps signed_queue_list) false guarded in
  let refusal :=
    create_response 403 (JObj [("error", JStr "Not authentified.")])
      (Some (create_request signed_queue_list)) in
  (has_signature signed_queue_list = false -> replied refusal guarded o) /\
  (has_signature signed_queue_list = true ->
   verify_signature (secret_key (self guarded)) signed_queue_list = true ->
   dispatched signed_queue_list guarded o) /\
  (has_signature signed_queue_list = true ->
   verify_signature (secret_key (self guarded)) signed_queue_list = false ->
   replied refusal guarded o).
Proof.
  split; [reflexivity|]. split; [exact signed_queue_list_valid|].
  split; [reflexivity|]. split; [reflexivity|].
  split; [right; reflexivity|].
  apply unauthenticated_frame_needs_signature with (strategy := "keystone");
    [reflexivity|exact signed_queue_list_valid|reflexivity|reflexivity
    |right; reflexivity].
Defined.

(** A session that holds a live timer and has an attempt pending is
    accepted again, with a token that expired a millisecond ago: the timer
    it held is cancelled and the new one is scheduled all the same. *)
Lemma authentication_accepted_witness :
  let w := run [Message (dumps login) false] logged_in in
  let w' := final_state (_auth_start (env_expiring 0) _auth_response w) in
  let welcome :=
    create_response 200 (JObj [("message", JStr "Authentified.")])
      (Some (create_request (JObj [("action", JStr "authenticate")]))) in
  (_auth_app (self w) = Some {| wraps := "keystone" |} /\
   _deauth_handle (self w) = Some 0%nat /\
   _loop w = [{| delay := 60000000; callback := deauthenticate_cb;
                 cancelled := false; ran := false |}]) /\
  token_expiry (env_expiring 0) = Some 0 /\
  _auth_start (env_expiring 0) _auth_response w = Returned tt w' /\
  self w' = {| proto_id := proto_id (self w);
               _auth_strategy := _auth_strategy (self w);
               secret_key := secret_key (self w);
               _authentified := true;
               _auth_app := None;
               _deauth_handle := Some (List.length (_loop w)) |} /\
  (forall (h : Handle) (t : Timer),
      _deauth_handle (self w) = Some h ->
      nth_error (_loop w) h = Some t ->
      nth_error (_loop w') h =
      Some {| delay := delay t; callback := callback t;
              cancelled := true; ran := ran t |}) /\
  (forall i : Handle,
      (i < List.length (_loop w))%nat ->
      _deauth_handle (self w) <> Some i ->
      nth_error (_loop w') i = nth_error (_loop w) i) /\
  List.length (_loop w') = S (List.length (_loop w)) /\
  nth_error (_loop w') (List.length (_loop w)) =
  Some {| delay := 0 - now w; callback := deauthenticate_cb;
          cancelled := false; ran := false |} /\
  wire w' =
  (wire w ++ [sendMessage (json_dumps (get_response welcome)) false])%list /\
  now w' = now w /\ auth_calls w' = auth_calls w.
Proof.
  split; [repeat split|].
  split; [reflexivity|].
  exact (@authentication_accepted
           _ _ (env_expiring 0) 0
           (run [Message (dumps login) false] logged_in) eq_refl).
Defined.

Lemma expiry_deauthenticates_witness :
  live (_loop logged_in) 0%nat = true /\
  fire 0%nat logged_in =
  Returned tt
    {| self := {| proto_id := "p1"; _auth_strategy := Some "keystone";
                  secret_key := "s3cr3t"; _authentified := false;
                  _auth_app := None; _deauth_handle := Some 0%nat |};
       _loop := mark_ran (_loop logged_in) 0%nat;
       now := 1000;
       wire := wire logged_in ++ [sendClose 4003 "Authentication expired."];
       auth_calls := [] |}.
Proof.
  split; [reflexivity|].
  exact (expiry_deauthenticates 0%nat logged_in eq_refl).
Defined.

Lemma authenticated_session_has_live_timer_witness :
  Forall honours_contract [AuthAccepted (env_expiring 60001000)] /\
  let w := run [AuthAccepted (env_expiring 60001000)] guarded in
  (_authentified (self w) = true ->
   exists h, _deauth_handle (self w) = Some h /\ live (_loop w) h = true) /\
  (forall wasClean code reason,
      step w (Closed wasClean code reason) = w).
Proof.
  assert (Forall honours_contract [AuthAccepted (env_expiring 60001000)])
    as H by (repeat constructor; discriminate).
  split; [exact H|].
  exact (@authenticated_session_has_live_timer
           _ _ "p1" (Some "keystone") "s3cr3t" 1000 _ H).
Defined.

Lemma authenticate_without_headers_raises_witness :
  json_loads (dumps login_without_headers) = Decoded login_without_headers /\
  structurally_valid login_without_headers /\
  action_is_authenticate login_without_headers = true /\
  lookup [("action", JStr "authenticate")] "headers" = None /\
  _auth_strategy (self guarded) = Some "keystone" /\
  (_authentified (self guarded) = true \/ _auth_app (self guarded) = None) /\
  onMessage (dumps login_without_headers) false guarded =
  Raised AttributeError
    (final_state (set_auth_app (Some {| wraps := "keystone" |}) guarded)).
Proof.
  split; [reflexivity|]. split; [exact login_without_headers_valid|].
  split; [reflexivity|]. split; [reflexivity|]. split; [reflexivity|].
  split; [right; reflexivity|].
  apply (@authenticate_without_headers_raises
           _ _ (dumps login_without_headers)
           [("action", JStr "authenticate")] guarded "keystone");
    [reflexivity|exact login_without_headers_valid|reflexivity|reflexivity
    |reflexivity|right; reflexivity].
Defined.

End Scenarios.

(** ** The notification parser: conduct on any input *)

Section Shape.
Import Notification Wire Conduct.

Variables (f : Factory) (t : Transport).

Lemma within_reach_body {python : Interpreter} e s' : within_reach BODY e s'.
Proof. unfold within_reach. destruct python; [exact I|congruence]. Qed.

Lemma within_reach_nothing {python : Interpreter} s s' :
  (s' = BODY -> s = BODY) -> within_reach s Nothing s'.
Proof.
  intros H. unfold within_reach. destruct python; [exact I|].
  intros Hs. split; [auto|now left].
Qed.

Lemma left_as_nothing {python : Interpreter} d s s' i i' n :
  phase_rank s <= phase_rank s' -> (s <> INIT -> i' = i) ->
  (s' = BODY -> s = BODY) ->
  left_as f t s i (mk f t d s' i' n).
Proof.
  intros Hr Hi Hb. exists Nothing. do 4 eexists.
  split; [reflexivity|]. cbn. repeat split; auto.
  now apply within_reach_nothing.
Qed.

Lemma left_as_refused {python : Interpreter} status d s i n :
  status = b "405 Not Allowed" \/
  status = b "400 Bad Request" /\ within_reach s (Refused status) s ->
  left_as f t s i (mk f (status_written t status) d s i n).
Proof.
  intros Hs. exists (Refused status). do 4 eexists.
  split; [reflexivity|]. cbn.
  split; [destruct Hs as [->|[-> _]]; auto|].
  split; [lia|]. split; [auto|].
  destruct Hs as [->|[_ H]]; [|exact H].
  unfold within_reach. destruct python; [exact I|]. auto.
Qed.

Lemma left_as_weaken {python : Interpreter} s0 i0 s i p :
  phase_rank s0 <= phase_rank s -> (s0 <> INIT -> s <> INIT /\ i0 = i) ->
  (forall e s', within_reach s e s' -> within_reach s0 e s') ->
  left_as f t s i p -> left_as f t s0 i0 p.
Proof.
  intros Hr Hi Hw (e & d' & s' & i' & n' & -> & He & Hr' & Hi' & Hw').
  exists e, d', s', i', n'. split; [reflexivity|]. split; [assumption|].
  split; [lia|]. split; [|auto].
  intros H. destruct (Hi H) as [Hs ->]. auto.
Qed.

Lemma body_block_left {python : Interpreter} d s i n :
  left_as f t s i (final_state (body_block (mk f t d s i n))).
Proof.
  destruct s; try (rewrite body_block_skip by discriminate;
                   apply left_as_nothing; auto).
  destruct (Z_lt_le_dec (Z.of_nat (List.length d)) n) as [Hk|Hk].
  - rewrite body_block_wait by assumption. apply left_as_nothing; auto.
  - rewrite body_block_complete by assumption.
    destruct i as [[|c i]|];
      try (apply left_as_refused; right;
           split; [reflexivity|apply within_reach_body]).
    exists (Delivered d (c :: i)). do 4 eexists.
    split; [reflexivity|]. cbn. repeat split; auto; try discriminate.
    apply within_reach_body.
Qed.

Lemma headers_then_body_left {python : Interpreter} d s i n :
  left_as f t s i
    (final_state
       match headers_block (mk f t d s i n) with
       | Returned Next st' => body_block st'
       | Returned Return st' => Returned tt st'
       | Raised e st' => Raised e st'
       end).
Proof.
  destruct s.
  1,3: rewrite headers_block_skip by discriminate; apply body_block_left.
  destruct (partition CRLFCRLF d) as [[h r]|] eqn:P.
  - rewrite headers_block_cut with (1 := P).
    unfold left_as, within_reach.
    destruct python as [|repr].
    + destruct (Mimetools.get _ _) as [[|c v]|];
        try (exists (Refused (b "400 Bad Request")); do 4 eexists;
             split; [reflexivity|]; cbn; auto).
      destruct (int (c :: v)) as [k|].
      * destruct (@body_block_left Python2 r BODY i k)
          as (e & d' & s' & i' & n' & Heq & He & Hr & Hi & _).
        exists e, d', s', i', n'. split; [exact Heq|].
        split; [exact He|]. split; [cbn in *; lia|].
        split; [intros _; apply Hi; discriminate|exact I].
      * exists Nothing. do 4 eexists. split; [reflexivity|]. cbn. auto.
    + exists Nothing. do 4 eexists. split; [reflexivity|]. cbn.
      repeat split; auto; discriminate.
  - rewrite headers_block_wait with (1 := P). apply body_block_left.
Qed.

Lemma data_received_left {python : Interpreter} data d s i n :
  left_as f t s i (final_state (data_received data (mk f t d s i n))).
Proof.
  rewrite data_received_eq.
  destruct s.
  2,3: rewrite init_block_skip by discriminate; apply headers_then_body_left.
  destruct (partition CRLF (d ++ data)) as [[l r]|] eqn:P.
  - rewrite init_block_cut with (1 := P).
    destruct (split_ws l) as [|verb [|uri [|version [|]]]];
      try (apply left_as_nothing; [lia|congruence|discriminate]).
    destruct (bytes_eqb verb (b "POST")).
    + apply left_as_weaken with (s := HEADERS) (i := Some (skipn 1 uri));
        [cbn; lia|congruence| |apply headers_then_body_left].
      intros e s'. unfold within_reach. destruct python; [auto|].
      intros H _. apply H. discriminate.
    + apply left_as_refused; auto.
  - rewrite init_block_wait with (1 := P). apply headers_then_body_left.
Qed.

End Shape.

Section NotificationConduct.
Import Notification Wire Conduct.

Lemma connection_lost_keeps (p : NotificationProtocol) :
  _factory (final_state (connection_lost p)) = _factory p /\
  _transport (final_state (connection_lost p)) = _transport p /\
  _state (final_state (connection_lost p)) = _state p.
Proof. repeat split. Qed.

(** One call on a connection that has not answered yet. *)
Lemma data_received_conduct {python : Interpreter} (c : bytes) (p : NotificationProtocol) :
  quiet p -> in_reach p ->
  let p' := final_state (data_received c p) in
  in_reach p' /\
  (quiet p' \/
   answered p' /\
   match python with
   | Python2 => True
   | Python3 _ =>
       sent (_factory p') = [] /\
       written (_transport p')
       = [b "HTTP/1.0 405 Not Allowed" ++ CRLFCRLF]
   end).
Proof.
  destruct p as [f t [d|] s i n]; intros (Hs & Hw & Hc) Hin;
    cbn in Hs, Hw, Hc.
  2:{ cbn. split; [exact Hin|]. left. repeat split; assumption. }
  destruct (data_received_left f t c d s i n)
    as (e & d' & s' & i' & n' & Heq & He & _ & _ & Hreach).
  fold (mk f t d s i n). cbv zeta. rewrite Heq. clear Heq.
  destruct t as [wr cl]. cbn in Hw, Hc. subst wr cl.
  unfold in_reach, within_reach in *. cbn [_state mk] in *.
  destruct python as [|repr].
  - split; [exact I|].
    destruct e as [|status|data sub]; cbn in He.
    + left. repeat split; assumption.
    + right. split; [|exact I]. split; [reflexivity|]. right.
      split; [assumption|].
      destruct He as [-> | ->]; [left|right]; reflexivity.
    + right. split; [|exact I]. split; [reflexivity|]. left.
      exists data, sub. cbn. rewrite Hs. repeat split; assumption.
  - destruct (Hreach Hin) as [Hs' [-> | ->]].
    + split; [exact Hs'|]. left. repeat split; assumption.
    + split; [exact Hs'|]. right.
      split; [|split; [assumption|reflexivity]].
      split; [reflexivity|]. right. split; [assumption|]. now right.
Qed.

Lemma feed_conduct {python : Interpreter} (chunks : list bytes) :
  forall p, quiet p -> in_reach p ->
    let p' := final_state (feed chunks p) in
    quiet p' \/
    answered p' /\
    match python with
    | Python2 => True
    | Python3 _ =>
        sent (_factory p') = [] /\
        written (_transport p')
        = [b "HTTP/1.0 405 Not Allowed" ++ CRLFCRLF]
    end.
Proof.
  induction chunks as [|c chunks IH]; intros p Hp Hin; [now left|].
  cbv zeta. rewrite feed_cons.
  pose proof (data_received_conduct c Hp Hin) as [Hin' Hc].
  destruct (data_received c p) as [[] p'|e p'];
    cbn [final_state] in Hc, Hin'; [|exact Hc].
  destruct (closing (_transport p')) eqn:Hcl.
  - destruct Hc as [(_ & _ & Ho) | Ha]; [congruence|].
    right. destruct (connection_lost_keeps p') as (Hf & Ht & _).
    unfold answered. rewrite Hf, Ht. exact Ha.
  - destruct Hc as [Hq | [(Ho & _) _]]; [now apply IH|congruence].
Qed.

Lemma fresh_in_reach {python : Interpreter} : in_reach fresh.
Proof. unfold in_reach. destruct python; [exact I|discriminate]. Qed.

(** X1. Whatever bytes arrive on a connection, in whatever chunks, the
    protocol answers at most once: either nothing was written or delivered
    and the transport is open, or exactly one status line was written and
    the transport closed, with one delivery to the factory when the status
    is [200 OK] and none when it is [400] or [405]. *)
Theorem one_answer_per_connection {python : Interpreter} (chunks : list bytes) :
  quiet (final_state (feed chunks fresh)) \/
  answered (final_state (feed chunks fresh)).
Proof.
  destruct (feed_conduct chunks (p := fresh)) as [H | [H _]];
    [repeat split|apply fresh_in_reach|now left|now right].
Qed.

(** X2. One call of [data_received] never moves the phase backwards, and
    once the request line has been read the subscriber is not assigned
    again. *)
Theorem phases_only_advance {python : Interpreter} (data : bytes) (p : NotificationProtocol) :
  let p' := final_state (data_received data p) in
  phase_rank (_state p) <= phase_rank (_state p') /\
  (_state p <> INIT -> _subscriber_id p' = _subscriber_id p).
Proof.
  destruct p as [f t [d|] s i n].
  2:{ cbn. split; [lia|reflexivity]. }
  destruct (data_received_left f t data d s i n)
    as (e & d' & s' & i' & n' & Heq & _ & Hr & Hi & _).
  fold (mk f t d s i n). cbv zeta. rewrite Heq. cbn. auto.
Qed.

End NotificationConduct.

Section Requests.
Import Notification Wire Conduct.
Local Open Scope Z_scope.

Variables subscriber_id version headers body : bytes.
Hypothesis sub_token : token subscriber_id = true.
Hypothesis version_token : token version = true.
Hypothesis version_given : version <> [].
Hypothesis headers_end : no_blank_line headers.

Let f0 : Factory := {| sent := [] |}.
Let t0 : Transport := {| written := []; closing := false |}.

(** A request whose line is in order is read up to the blank line in one
    call; where [import mimetools] succeeds what follows depends on the
    [Content-Length] header. *)
Lemma request_read_to_headers :
  @data_received Python2 (request subscriber_id version headers body) fresh =
  match Mimetools.get (Mimetools.Message headers) (b "content-length") with
  | Some (c :: v) =>
      match int (c :: v) with
      | Some k =>
          @body_block Python2 (mk f0 t0 body BODY (Some subscriber_id) k)
      | None =>
          Raised ValueError (mk f0 t0 body HEADERS (Some subscriber_id) 0)
      end
  | _ =>
      Returned tt
        (mk f0 (status_written t0 (b "400 Bad Request")) body HEADERS
            (Some subscriber_id) 0)
  end.
Proof.
  rewrite fresh_mk, data_received_eq. cbn [app].
  rewrite init_block_cut
    with (1 := @msg_cut_line _ _ headers body sub_token version_token).
  rewrite (@request_line_tokens _ _ sub_token version_token version_given).
  change (bytes_eqb (b "POST") (b "POST")) with true. cbv iota.
  change (skipn 1 (b "/" ++ subscriber_id)) with subscriber_id.
  rewrite headers_block_cut with (1 := @rest_cut_headers _ body headers_end).
  destruct (Mimetools.get _ _) as [[|c v]|]; try reflexivity.
  destruct (int (c :: v)); reflexivity.
Qed.

(** After [ImportError] the headers are not read at all. *)
Lemma request_read_fallback (repr : bytes -> bytes) :
  @data_received (Python3 repr) (request subscriber_id version headers body)
    fresh
  = Raised TypeError (mk f0 t0 body HEADERS (Some subscriber_id) 0).
Proof.
  exact (@received_whole_fallback subscriber_id _ _ body sub_token version_token version_given
           headers_end repr).
Qed.

End Requests.

Section RequestConduct.
Import Notification Wire Conduct.
Local Open Scope Z_scope.

(** X3. A request with a readable [Content-Length] [n] and a subscriber.
    Where [import mimetools] succeeds: as soon as at least [n] bytes
    follow the blank line, everything that is buffered after it is
    delivered, not only the first [n] bytes; with fewer bytes the protocol
    waits in the body phase, having answered nothing.  After
    [ImportError]: [TypeError] leaves [data_received] with nothing
    delivered, however many bytes follow. *)
Theorem delivery_threshold
        (subscriber_id version headers value body : bytes) (n : Z) :
  token subscriber_id = true -> subscriber_id <> [] ->
  token version = true -> version <> [] ->
  no_blank_line headers ->
  Mimetools.get (Mimetools.Message headers) (b "content-length")
  = Some value ->
  int value = Some n ->
  let msg := request subscriber_id version headers body in
  let p := final_state (@data_received Python2 msg fresh) in
  (n <= Z.of_nat (List.length body) -> delivered body subscriber_id p) /\
  (Z.of_nat (List.length body) < n ->
   quiet p /\ _state p = BODY /\ _data p = Some body) /\
  (forall repr,
      exists p', @data_received (Python3 repr) msg fresh = Raised TypeError p'
                 /\ quiet p' /\ _state p' = HEADERS /\ _data p' = Some body).
Proof.
  intros Hsub Hne Hver Hvne Hend Hget Hint msg p. subst p msg.
  rewrite request_read_to_headers by assumption.
  rewrite Hget.
  destruct value as [|c v]; [discriminate Hint|]. rewrite Hint.
  split; [|split].
  - intros Hn. rewrite body_block_complete by assumption.
    destruct subscriber_id as [|s0 s]; [contradiction|].
    split; [reflexivity|split; reflexivity].
  - intros Hn. rewrite body_block_wait by assumption.
    repeat split.
  - intros repr. rewrite request_read_fallback by assumption.
    eexists. split; [reflexivity|]. repeat split.
Qed.

(** X4. A request whose resource is a bare [/] names no subscriber.  Where
    [import mimetools] succeeds, once the announced bytes are there it is
    answered [400 Bad Request], and the factory is not called.  After
    [ImportError] it is not answered: [TypeError] leaves [data_received]
    with nothing written and the transport open. *)
Theorem empty_subscriber_refused (version headers value body : bytes)
        (n : Z) :
  token version = true -> version <> [] ->
  no_blank_line headers ->
  Mimetools.get (Mimetools.Message headers) (b "content-length")
  = Some value ->
  int value = Some n ->
  n <= Z.of_nat (List.length body) ->
  let msg := request [] version headers body in
  (exists p, @data_received Python2 msg fresh = Returned tt p /\
             refused (b "400 Bad Request") p) /\
  (forall repr,
      exists p, @data_received (Python3 repr) msg fresh = Raised TypeError p
                /\ quiet p).
Proof.
  intros Hver Hvne Hend Hget Hint Hn msg. subst msg. split.
  - rewrite request_read_to_headers by (assumption || reflexivity).
    rewrite Hget.
    destruct value as [|c v]; [discriminate Hint|]. rewrite Hint.
    rewrite body_block_complete by assumption.
    eexists. split; [reflexivity|].
    split; [reflexivity|split; reflexivity].
  - intros repr.
    rewrite request_read_fallback by (assumption || reflexivity).
    eexists. split; [reflexivity|]. repeat split.
Qed.

(** X5. A [Content-Length] that is not a number.  Where [import mimetools]
    succeeds [int] raises [ValueError] out of [data_received]; after
    [ImportError] the [TypeError] of [Message(...)] comes first.  Either
    way nothing is written, the transport stays open, and the protocol is
    left in the headers phase with the body bytes as its buffer. *)
Theorem unreadable_length_raises
        (subscriber_id version headers value body : bytes) :
  token subscriber_id = true ->
  token version = true -> version <> [] ->
  no_blank_line headers ->
  Mimetools.get (Mimetools.Message headers) (b "content-length")
  = Some value ->
  value <> [] ->
  int value = None ->
  let msg := request subscriber_id version headers body in
  (exists p, @data_received Python2 msg fresh = Raised ValueError p /\
             quiet p /\ _state p = HEADERS /\ _data p = Some body) /\
  (forall repr,
      exists p, @data_received (Python3 repr) msg fresh = Raised TypeError p
                /\ quiet p /\ _state p = HEADERS /\ _data p = Some body).
Proof.
  intros Hsub Hver Hvne Hend Hget Hval Hint msg. subst msg. split.
  - rewrite request_read_to_headers by assumption.
    rewrite Hget.
    destruct value as [|c v]; [contradiction|]. rewrite Hint.
    eexists. split; [reflexivity|]. repeat split.
  - intros repr. rewrite request_read_fallback by assumption.
    eexists. split; [reflexivity|]. repeat split.
Qed.

(** X6. A first line that does not split into three tokens is dropped:
    after the [ValueError] the protocol is in the initial phase with the
    bytes after that line as its buffer, so the next call reads them as
    the start of a request, as a fresh connection would. *)
Theorem dropped_line_resumes {python : Interpreter} (line rest : bytes) :
  Forall (fun c => c <> CR) line ->
  List.length (split_ws line) <> 3%nat ->
  let p := mk {| sent := [] |} {| written := []; closing := false |}
              rest INIT None 0 in
  data_received (line ++ CRLF ++ rest) fresh = Raised ValueError p /\
  forall c, data_received c p = data_received (rest ++ c) fresh.
Proof.
  intros Hline Hcount p. split.
  - rewrite fresh_mk, data_received_eq. cbn [app].
    rewrite init_block_cut with (1 := partition_CRLF_no_CR rest Hline).
    destruct (split_ws line) as [|verb [|uri [|version [|x l]]]];
      try reflexivity.
    now contradiction Hcount.
  - intros c. subst p. rewrite fresh_mk, !data_received_eq. reflexivity.
Qed.

(** X7. Cutting a chunk in two changes nothing, as long as the first part
    is taken without an exception and without closing the transport. *)
Theorem split_chunk {python : Interpreter} (p c : bytes)
        (chunks : list bytes) (st : NotificationProtocol) :
  data_received p fresh = Returned tt st ->
  closing (_transport st) = false ->
  feed (p :: c :: chunks) fresh = feed ((p ++ c) :: chunks) fresh.
Proof.
  intros Hp Hopen.
  rewrite (feed_cons p), Hp, Hopen.
  rewrite !feed_cons.
  now rewrite (data_received_resume p c Hp Hopen).
Qed.

(** X24. After [ImportError] no notification is ever delivered: whatever
    bytes arrive, in whatever chunks, the factory is not called, the body
    phase is not reached, and the one answer the protocol can give is
    [405 Not Allowed]. *)
Theorem nothing_delivered_without_mimetools (repr : bytes -> bytes)
        (chunks : list bytes) :
  let p := final_state (@feed (Python3 repr) chunks fresh) in
  sent (_factory p) = [] /\
  (written (_transport p) = [] /\ closing (_transport p) = false \/
   written (_transport p) = [b "HTTP/1.0 405 Not Allowed" ++ CRLFCRLF] /\
   closing (_transport p) = true).
Proof.
  intros p. subst p.
  destruct (@feed_conduct (Python3 repr) chunks fresh)
    as [(Hs & Hw & Hc) | [(Hc & _) (Hs & Hw)]];
    [repeat split|discriminate| |]; auto.
Qed.

Lemma sub1_line_no_CR :
  Forall (fun c => c <> CR) (b "GET /sub1 HTTP/1.1").
Proof. repeat constructor; discriminate. Defined.

Lemma delivery_threshold_witness :
  let msg := request (b "sub1") (b "HTTP/1.1") (b "Content-Length: 2")
                     (b "hello") in
  let p := final_state (@data_received Python2 msg fresh) in
  (2 <= Z.of_nat (List.length (b "hello")) ->
   delivered (b "hello") (b "sub1") p) /\
  (Z.of_nat (List.length (b "hello")) < 2 ->
   quiet p /\ _state p = BODY /\ _data p = Some (b "hello")) /\
  (forall repr,
      exists p', @data_received (Python3 repr) msg fresh = Raised TypeError p'
                 /\ quiet p' /\ _state p' = HEADERS
                 /\ _data p' = Some (b "hello")).
Proof.
  apply (@delivery_threshold (b "sub1") (b "HTTP/1.1")
           (b "Content-Length: 2") (b "2") (b "hello") 2);
    reflexivity || discriminate.
Defined.

Lemma empty_subscriber_refused_witness :
  let msg := request [] (b "HTTP/1.1") (b "Content-Length: 5") (b "hello") in
  (exists p, @data_received Python2 msg fresh = Returned tt p /\
             refused (b "400 Bad Request") p) /\
  (forall repr,
      exists p, @data_received (Python3 repr) msg fresh = Raised TypeError p
                /\ quiet p).
Proof.
  apply (@empty_subscriber_refused (b "HTTP/1.1") (b "Content-Length: 5")
           (b "5") (b "hello") 5);
    reflexivity || discriminate.
Defined.

Lemma unreadable_length_raises_witness :
  let msg := request (b "sub1") (b "HTTP/1.1") (b "Content-Length: five")
                     (b "hello") in
  (exists p, @data_received Python2 msg fresh = Raised ValueError p /\
             quiet p /\ _state p = HEADERS /\ _data p = Some (b "hello")) /\
  (forall repr,
      exists p, @data_received (Python3 repr) msg fresh = Raised TypeError p
                /\ quiet p /\ _state p = HEADERS
                /\ _data p = Some (b "hello")).
Proof.
  apply (@unreadable_length_raises (b "sub1") (b "HTTP/1.1")
           (b "Content-Length: five") (b "five") (b "hello"));
    reflexivity || discriminate.
Defined.

Lemma dropped_line_resumes_witness :
  let p := mk {| sent := [] |} {| written := []; closing := false |}
              (b "POST /sub1 HTTP/1.1") INIT None 0 in
  @data_received Python2 (b "HELLO" ++ CRLF ++ b "POST /sub1 HTTP/1.1") fresh
  = Raised ValueError p /\
  forall c, @data_received Python2 c p
            = @data_received Python2 (b "POST /sub1 HTTP/1.1" ++ c) fresh.
Proof.
  apply (@dropped_line_resumes Python2 (b "HELLO")
           (b "POST /sub1 HTTP/1.1")).
  - repeat constructor; discriminate.
  - vm_compute. discriminate.
Defined.

Lemma split_chunk_witness :
  @feed Python2 [b "POST /su"; b "b1 HTTP/1.1"; CRLF] fresh
  = @feed Python2 [b "POST /su" ++ b "b1 HTTP/1.1"; CRLF] fresh.
Proof.
  apply (@split_chunk Python2 (b "POST /su") (b "b1 HTTP/1.1") [CRLF]
           (mk {| sent := [] |} {| written := []; closing := false |}
               (b "POST /su") INIT None 0));
    reflexivity.
Defined.

Lemma other_verb_refused_witness :
  exists p,
    @data_received Python2 (b "GET /sub1 HTTP/1.1" ++ CRLF ++ b "Host: x")
      fresh
    = Returned tt p /\
    refused (b "405 Not Allowed") p.
Proof.
  apply (@other_verb_refused Python2 (b "GET /sub1 HTTP/1.1") (b "Host: x")
           (b "GET") (b "/sub1") (b "HTTP/1.1") sub1_line_no_CR);
    reflexivity.
Defined.

Lemma missing_length_refused_witness :
  let msg := b "POST /sub1 HTTP/1.1" ++ CRLF ++ b "Host: x" ++ CRLFCRLF
               ++ b "hello" in
  (exists p, @data_received Python2 msg fresh = Returned tt p /\
             refused (b "400 Bad Request") p) /\
  (forall repr,
      exists p, @data_received (Python3 repr) msg fresh = Raised TypeError p
                /\ sent (_factory p) = [] /\ written (_transport p) = []
                /\ closing (_transport p) = false).
Proof.
  apply (@missing_length_refused (b "POST /sub1 HTTP/1.1") (b "Host: x")
           (b "hello") (b "POST") (b "/sub1") (b "HTTP/1.1"));
    try reflexivity.
  repeat constructor; discriminate.
Defined.

End RequestConduct.

(** ** The session engine: edge cases and invariants *)

Section SessionConduct.
Import Messaging Behaviour.
Local Open Scope string_scope.
Local Open Scope Z_scope.
Context {handler : Handler} {libs : Libs}.

Lemma inert_bind {A B : Type} (m : M World A) (k : A -> M World B) :
  inert m -> (forall a, inert (k a)) -> inert (bind m k).
Proof.
  intros Hm Hk w. unfold bind. specialize (Hm w). cbv zeta in Hm.
  destruct (m w) as [a s|e s]; [|exact Hm].
  cbn [final_state] in Hm. destruct Hm as (H1 & H2 & H3 & H4).
  specialize (Hk a s). cbv zeta in *. 
  destruct Hk as (K1 & K2 & K3 & K4). repeat split; congruence.
Qed.

Lemma inert_pure {A : Type} (m : M World A) :
  (forall w, final_state (m w) = w) -> inert m.
Proof. intros H w. cbv zeta. rewrite H. repeat split. Qed.

Lemma inert_ret {A : Type} (a : A) : inert (ret a).
Proof. now apply inert_pure. Qed.
Lemma inert_raise {A : Type} (e : exn) : inert (@raise World A e).
Proof. now apply inert_pure. Qed.
Lemma inert_get : inert (@get World).
Proof. now apply inert_pure. Qed.
Lemma inert_py_get d k : inert (@py_get World d k).
Proof. apply inert_pure. now destruct d. Qed.
Lemma inert_py_get_default d k v : inert (@py_get_default World d k v).
Proof. apply inert_pure. now destruct d. Qed.
Lemma inert_py_in k c : inert (@py_in World k c).
Proof. apply inert_pure. now destruct c. Qed.
Lemma inert_emit x : inert (emit x).
Proof. intros w. repeat split. Qed.
Lemma inert_send_response resp : inert (_send_response resp).
Proof. apply inert_emit. Qed.

Ltac inert_tac :=
  repeat first
    [ apply inert_ret | apply inert_raise | apply inert_get
    | apply inert_send_response | apply inert_emit
    | apply inert_py_get | apply inert_py_get_default | apply inert_py_in
    | apply inert_bind; [|intros]
    | match goal with
      | |- inert (match ?x with _ => _ end) => destruct x
      end ].

Lemma inert_auth_response status message :
  inert (_auth_response status message).
Proof. unfold _auth_response. cbv zeta. inert_tac. Qed.


(** A frame marked binary is answered 400 [Schema validation failed.]
    without being decoded: whatever the payload and whatever the session,
    nothing but the outgoing frames changes. *)
Lemma binary_frame_refused (payload : string) (w : World) :
  replied
    (create_response 400 (JObj [("error", JStr "Schema validation failed.")])
       None)
    w (onMessage payload true w).
Proof. reflexivity. Qed.

(** X10. A frame the handler's validation rejects gets the validator's
    response and nothing else happens: no authentication check, no
    dispatch, no authenticator call, whatever the session and the
    action. *)
Theorem invalid_frame_gets_validator_reply
        (text : string) (payload : json) (resp : Response) (w : World) :
  json_loads text = Decoded payload ->
  validate_request payload (create_request payload) = Some resp ->
  replied resp w (onMessage text false w).
Proof.
  intros Hloads Hval. unfold replied, onMessage. rewrite Hloads, Hval.
  apply send_response_eq.
Qed.

(** X11. When the authenticator answers with a status other than 200, the
    reply carries that status and [Authentication failed.], as the answer
    to an ["authenticate"] request; the protocol object is left as it
    was: not authenticated, and the attempt still pending. *)
Theorem rejection_echoes_status
        (status : string) (tok : bytes) (rest : list bytes) (code : Z)
        (message : list json) (w : World) :
  split_ws (b status) = tok :: rest ->
  int tok = Some code ->
  code <> 200 ->
  replied
    (create_response code (JObj [("error", JStr "Authentication failed.")])
       (Some (create_request (JObj [("action", JStr "authenticate")]))))
    w (_auth_response status message w).
Proof.
  intros Hsplit Hint Hcode. unfold replied, _auth_response, text_int.
  rewrite Hsplit, Hint.
  destruct (code =? 200) eqn:E; [apply Z.eqb_eq in E; contradiction|].
  apply send_response_eq.
Qed.

(** X13. No frames, however many and whatever they hold, change the
    authentication flag, the timer handle or the loop's timers: only the
    authenticator's answer and the timer do. *)
Theorem frames_leave_authentication
        (frames : list (string * bool)) (w : World) :
  timer_kept w (run (map (fun f => Message (fst f) (snd f)) frames) w).
Proof.
  unfold run. revert w.
  induction frames as [|[payload isBinary] frames IH]; intros w.
  - apply timer_kept_refl.
  - cbn [map fold_left fst snd].
    eapply timer_kept_trans; [apply keeps_onMessage|apply IH].
Qed.

Lemma authenticate_with_headers (o h : list (string * json)) (w : World)
      (strategy : AuthStrategy) :
  lookup o "headers" = Some (JObj h) ->
  _auth_strategy (self w) = Some strategy ->
  _authenticate (JObj o) w
  = Returned tt (attempting w strategy (environment h)).
Proof.
  intros Hh Hs. unfold _authenticate, bind, get, py_get, py_items, ret.
  rewrite Hs. cbn. rewrite Hh. reflexivity.
Qed.

Lemma login_starts_authenticator_aux
      (text : string) (o h : list (string * json)) (w : World)
      (strategy : AuthStrategy) :
  json_loads text = Decoded (JObj o) ->
  validate_request (JObj o) (create_request (JObj o)) = None ->
  action_is_authenticate (JObj o) = true ->
  lookup o "headers" = Some (JObj h) ->
  _auth_strategy (self w) = Some strategy ->
  _auth_app (self w) = None ->
  _authentified (self w) = false ->
  onMessage text false w
  = Returned tt (attempting w strategy (environment h)).
Proof.
  intros Hloads Hvalid Ha Hh Hs Happ Hau.
  rewrite <- authenticate_with_headers with (1 := Hh) (2 := Hs).
  now apply onMessage_login with (strategy := strategy).
Qed.

(** X14. An ["authenticate"] frame with a [headers] mapping, on a session
    with no attempt pending (or already authenticated): the application is
    built and called once with the environment made from the headers, it
    is kept as the pending attempt, and no reply is sent. *)
Theorem login_starts_authenticator
        (text : string) (o h : list (string * json)) (w : World)
        (strategy : AuthStrategy) :
  json_loads text = Decoded (JObj o) ->
  validate_request (JObj o) (create_request (JObj o)) = None ->
  action_is_authenticate (JObj o) = true ->
  lookup o "headers" = Some (JObj h) ->
  _auth_strategy (self w) = Some strategy ->
  _authentified (self w) = true \/ _auth_app (self w) = None ->
  onMessage text false w
  = Returned tt (attempting w strategy (environment h)).
Proof.
  intros Hloads Hvalid Ha Hh Hs Hroute.
  rewrite <- authenticate_with_headers with (1 := Hh) (2 := Hs).
  destruct (_authentified (self w)) eqn:Hau.
  - rewrite onMessage_authorised with (1 := Hloads) (2 := Hvalid);
      [now rewrite Ha|now right].
  - destruct Hroute as [Hc | Happ]; [discriminate Hc|].
    now apply onMessage_login with (strategy := strategy).
Qed.

(** X15. On a listener without authentication strategy an
    ["authenticate"] frame makes [_authenticate] call [None]: [TypeError]
    leaves [onMessage], no reply is sent and nothing changes. *)
Theorem login_without_strategy_raises
        (text : string) (o : list (string * json)) (w : World) :
  json_loads text = Decoded (JObj o) ->
  validate_request (JObj o) (create_request (JObj o)) = None ->
  action_is_authenticate (JObj o) = true ->
  _auth_strategy (self w) = None ->
  onMessage text false w = Raised TypeError w.
Proof.
  intros Hloads Hvalid Ha Hs.
  rewrite onMessage_authorised with (1 := Hloads) (2 := Hvalid);
    [|now left].
  rewrite Ha. now apply authenticate_without_strategy.
Qed.

(** X16. While an attempt is pending on an unauthenticated session, no
    frame reaches the authenticator or replaces the pending application:
    whatever the frame, the protocol object and the authenticator's calls
    are as before. *)
Theorem pending_attempt_blocks_authenticator
        (payload : string) (isBinary : bool) (w : World)
        (strategy : AuthStrategy) (app : AuthApp) :
  _auth_strategy (self w) = Some strategy ->
  _authentified (self w) = false ->
  _auth_app (self w) = Some app ->
  let w' := step w (Message payload isBinary) in
  self w' = self w /\ auth_calls w' = auth_calls w.
Proof.
  intros Hs Hau Happ.
  enough (exists m : M World unit,
             inert m /\ handle_event (Message payload isBinary) w = m w)
    as (m & Hm & Heq).
  { unfold step. rewrite Heq. destruct (Hm w) as (H1 & _ & _ & H4). auto. }
  cbn [handle_event]. unfold onMessage.
  destruct isBinary;
    [eexists; split; [|reflexivity]; apply inert_send_response|].
  destruct (json_loads payload) as [v|e ex];
    [|destruct (is_ValueError e); eexists; (split; [|reflexivity]);
      [apply inert_send_response|apply inert_raise]].
  destruct (validate_request v (create_request v));
    [eexists; split; [|reflexivity]; apply inert_send_response|].
  unfold bind at 1. unfold get at 1. cbv beta iota.
  rewrite Hs, Hau, Happ. cbn [negb andb].
  unfold bind at 1. unfold ret at 1. cbv beta iota.
  eexists; split; [|reflexivity]. inert_tac.
Qed.


Lemma single_bind {A B : Type} (m : M World A) (k : A -> M World B) :
  silent m -> (forall a, single_effect (k a)) -> single_effect (bind m k).
Proof.
  intros Hm Hk w. unfold bind. specialize (Hm w). cbv zeta in Hm.
  destruct (m w) as [a s|e s]; cbn [final_state] in Hm;
    destruct Hm as [Hw Hc].
  - specialize (Hk a s). cbv zeta in *. rewrite Hw, Hc in Hk. exact Hk.
  - left. split; assumption.
Qed.

Lemma silent_pure {A : Type} (m : M World A) :
  (forall w, final_state (m w) = w) -> silent m.
Proof. intros H w. cbv zeta. rewrite H. split; reflexivity. Qed.

Lemma single_of_silent {A : Type} (m : M World A) :
  silent m -> single_effect m.
Proof. intros H w. left. apply H. Qed.

Lemma silent_set_auth_app a : silent (set_auth_app a).
Proof. intros w. split; reflexivity. Qed.

Lemma single_emit text : single_effect (emit (sendMessage text false)).
Proof. intros w. right. left. exists text. split; reflexivity. Qed.

Lemma single_send_response resp : single_effect (_send_response resp).
Proof. apply single_emit. Qed.

Lemma single_call_auth_app a env : single_effect (call_auth_app a env).
Proof. intros w. right. right. exists (a, env). split; reflexivity. Qed.

Ltac silent_tac :=
  first [ apply silent_set_auth_app
        | apply silent_pure; intros;
          unfold py_get, py_get_default, py_in, py_items, get, ret, raise;
          repeat match goal with
                 | |- context [match ?x with _ => _ end] => destruct x
                 end; reflexivity ].

Ltac single_tac :=
  repeat first
    [ apply single_send_response | apply single_call_auth_app
    | apply single_of_silent; silent_tac
    | apply single_bind; [silent_tac|intros]
    | match goal with
      | |- single_effect (match ?x with _ => _ end) => destruct x
      end ].

Lemma single_authenticate payload : single_effect (_authenticate payload).
Proof. unfold _authenticate. cbv zeta. single_tac. Qed.

(** X17. Each frame leads to at most one thing towards the outside: one
    text frame sent back, or one call of the authenticator, or neither;
    never both, never a close frame, never a binary frame. *)
Theorem one_effect_per_frame (payload : string) (isBinary : bool) :
  single_effect (onMessage payload isBinary).
Proof.
  unfold onMessage. cbv zeta.
  single_tac; apply single_authenticate.
Qed.


(** With no readable expiry in the environment [_auth_start] raises right
    after its first two assignments. *)
Lemma auth_start_unreadable (env : json)
      (start_response : string -> list json -> M World unit) (w : World) :
  token_expiry env = None ->
  exists e, _auth_start env start_response w = Raised e (marked w) /\
            (e = KeyError \/ e = TypeError \/ e = ValueError).
Proof.
  intros H. unfold token_expiry in H.
  unfold _auth_start, bind, py_getitem.
  cbn [set_authentified set_auth_app set_self modify self].
  fold (marked w).
  destruct env as [ | | | | |e];
    try (exists TypeError; split; [reflexivity|auto]).
  destruct (lookup e "keystone.token_info") as [[ | | | | |i]|];
    try (exists TypeError; split; [reflexivity|auto]);
    try (exists KeyError; split; [reflexivity|auto]).
  cbn [ret].
  destruct (lookup i "token") as [[ | | | | |t]|];
    try (exists TypeError; split; [reflexivity|auto]);
    try (exists KeyError; split; [reflexivity|auto]).
  cbn [ret].
  destruct (lookup t "expires_at") as [x|];
    try (exists KeyError; split; [reflexivity|auto]).
  cbn [ret]. rewrite H.
  exists ValueError; split; [reflexivity|auto].
Qed.

(** X18. When the authenticator accepts but its environment holds no
    readable expiry, an exception ([KeyError], [TypeError] or
    [ValueError]) leaves [_auth_start] after the session was marked
    authenticated: no timer is scheduled, no reply is sent, and the
    session stays authenticated. *)
Theorem accepted_without_expiry (env : json) (w : World) :
  token_expiry env = None ->
  let w' := step w (AuthAccepted env) in
  w' = marked w /\
  _authentified (self w') = true /\
  _loop w' = _loop w /\ wire w' = wire w /\
  exists e, handle_event (AuthAccepted env) w = Raised e w' /\
            (e = KeyError \/ e = TypeError \/ e = ValueError).
Proof.
  intros H w'. subst w'. unfold step. cbn [handle_event].
  destruct (auth_start_unreadable env _auth_response w H) as (e & -> & He).
  cbn [final_state]. repeat split. exists e. split; [reflexivity|exact He].
Qed.

Lemma live_app_inv (l : list Timer) (x : Timer) (h : Handle) :
  live (l ++ [x]) h = true ->
  h = List.length l \/ live l h = true.
Proof.
  unfold live. intros H.
  destruct (Nat.lt_ge_cases h (List.length l)) as [Hlt|Hge].
  - right. now rewrite nth_error_app1 in H.
  - rewrite nth_error_app2 in H by assumption.
    destruct (h - List.length l)%nat as [|k] eqn:E; [left; lia|].
    destruct k; discriminate H.
Qed.

Lemma live_cancel_at (l : list Timer) (h0 h : Handle) :
  live (cancel_at l h0) h = true -> h <> h0 /\ live l h = true.
Proof.
  unfold live.
  revert h0 h; induction l as [|t l IH]; intros [|h0] [|h] H; cbn in *;
    try discriminate H; try (split; [discriminate|exact H]).
  destruct (IH h0 h H) as [Hn Hl]. split; [congruence|exact Hl].
Qed.

Lemma live_mark_ran (l : list Timer) (h0 h : Handle) :
  live (mark_ran l h0) h = true -> live l h = true.
Proof.
  unfold live.
  revert h0 h; induction l as [|t l IH]; intros [|h0] [|h] H; cbn in *;
    try discriminate H; try exact H.
  - rewrite andb_false_r in H. discriminate H.
  - exact (IH h0 h H).
Qed.

Lemma sole_timer_kept (w w' : World) :
  timer_kept w w' -> sole_timer w -> sole_timer w'.
Proof.
  intros (_ & H & L) Hw h. rewrite H, L. apply Hw.
Qed.

Lemma sole_timer_rearmed (w : World) (t : Z) :
  sole_timer w -> sole_timer (rearmed w t).
Proof.
  intros Hw h Hl. cbn in *.
  apply live_app_inv in Hl. destruct Hl as [-> | Hl].
  - destruct (_deauth_handle (self w)); now rewrite ?cancel_at_length.
  - exfalso. destruct (_deauth_handle (self w)) as [h0|] eqn:E.
    + apply live_cancel_at in Hl. destruct Hl as [Hn Hl].
      apply Hw in Hl. congruence.
    + apply Hw in Hl. congruence.
Qed.

Lemma step_sole_timer (w : World) (e : event) :
  sole_timer w -> sole_timer (step w e).
Proof.
  intros Hw. unfold step.
  destruct e as [payload isBinary|env|status|h|dt|wasClean code reason];
    cbn [handle_event].
  - apply sole_timer_kept with (1 := keeps_onMessage payload isBinary w).
    exact Hw.
  - destruct (token_expiry env) as [t|] eqn:Ht.
    + rewrite auth_start_rearms with (1 := Ht).
      apply sole_timer_kept
        with (1 := keeps_auth_response "200 OK" [] (rearmed w t)).
      now apply sole_timer_rearmed.
    + destruct (auth_start_unreadable env _auth_response w Ht)
        as (e & -> & _).
      exact Hw.
  - apply sole_timer_kept with (1 := keeps_auth_response status [] w).
    exact Hw.
  - destruct (live (_loop w) h) eqn:Hl.
    + rewrite fire_live with (1 := Hl).
      intros h' Hl'. cbn in Hl'. apply live_mark_ran in Hl'.
      exact (Hw h' Hl').
    + unfold fire, bind, get. rewrite Hl. exact Hw.
  - exact Hw.
  - exact Hw.
Qed.

(** X19. Whatever happens on a connection, at most one of the timers it
    scheduled can still fire, and it is the one whose handle the session
    holds: every earlier one was cancelled by [_auth_start] or has run. *)
Theorem at_most_one_live_timer
        (proto : string) (strategy : option AuthStrategy) (key : string)
        (t0 : Z) (events : list event) :
  sole_timer (run events (connect proto strategy key t0)).
Proof.
  unfold run.
  assert (sole_timer (connect proto strategy key t0)) as H0.
  { intros h Hl. unfold live in Hl. cbn in Hl.
    destruct h; discriminate Hl. }
  revert H0. generalize (connect proto strategy key t0).
  induction events as [|e events IH]; intros w Hw; [exact Hw|].
  cbn [fold_left]. apply IH. now apply step_sole_timer.
Qed.


(** X20. A login that the authenticator rejects cannot be retried: the
    application of the first attempt stays pending, so the same
    ["authenticate"] frame sent again is taken as a request that needs a
    signature and is answered 403 with the body
    [{"error": "Not authentified."}], without a second call of the
    authenticator. *)
Theorem rejected_login_cannot_retry
        (text status : string) (o h : list (string * json)) (w : World)
        (strategy : AuthStrategy) :
  json_loads text = Decoded (JObj o) ->
  validate_request (JObj o) (create_request (JObj o)) = None ->
  action_is_authenticate (JObj o) = true ->
  lookup o "headers" = Some (JObj h) ->
  lookup h "URL-Signature" = None ->
  _auth_strategy (self w) = Some strategy ->
  _authentified (self w) = false ->
  _auth_app (self w) = None ->
  let w1 := step w (Message text false) in
  let w2 := step w1 (AuthRejected status) in
  auth_calls w1
  = (auth_calls w ++ [({| wraps := strategy |}, environment h)])%list /\
  replied
    (create_response 403 (JObj [("error", JStr "Not authentified.")])
       (Some (create_request (JObj o))))
    w2 (onMessage text false w2).
Proof.
  intros Hloads Hvalid Ha Hh Hsig Hs Hau Happ w1 w2.
  assert (w1 = attempting w strategy (environment h)) as E1.
  { unfold w1, step. cbn [handle_event].
    rewrite login_starts_authenticator_aux
      with (1 := Hloads) (2 := Hvalid) (3 := Ha) (4 := Hh) (5 := Hs)
           (6 := Happ) (7 := Hau).
    reflexivity. }
  split; [now rewrite E1|].
  assert (self w2 = self w1) as E2.
  { unfold w2, step. cbn [handle_event].
    apply (inert_auth_response status [] w1). }
  unfold replied.
  rewrite onMessage_unauthenticated
    with (1 := Hloads) (strategy := strategy).
  - unfold has_signature. rewrite Hh, Hsig. reflexivity.
  - split; [|exact Hvalid]. exists o. split; [reflexivity|]. right. eauto.
  - rewrite E2, E1. exact Hs.
  - rewrite E2, E1. exact Hau.
  - left. rewrite E2, E1. discriminate.
Qed.

(** X21. Expiry takes effect at once: a valid unsigned request that an
    authenticated session has dispatched is, once the session's timer has
    fired, answered 403 with the body [{"error": "Not authentified."}]. *)
Theorem expiry_takes_effect
        (text : string) (payload : json) (w : World)
        (strategy : AuthStrategy) (h : Handle) :
  json_loads text = Decoded payload ->
  structurally_valid payload ->
  action_is_authenticate payload = false ->
  has_signature payload = false ->
  _auth_strategy (self w) = Some strategy ->
  _authentified (self w) = true ->
  live (_loop w) h = true ->
  dispatched payload w (onMessage text false w) /\
  let w' := step w (TimerDue h) in
  replied
    (create_response 403 (JObj [("error", JStr "Not authentified.")])
       (Some (create_request payload)))
    w' (onMessage text false w').
Proof.
  intros Hloads Hsv Ha Hsig Hs Hau Hl.
  destruct Hsv as [(o & -> & Hh) Hvalid].
  split.
  - unfold dispatched, replied.
    rewrite onMessage_authorised with (1 := Hloads) (2 := Hvalid);
      [|now right].
    now rewrite Ha.
  - intros w'.
    assert (self w' = self (final_state (set_authentified false w))) as E.
    { unfold w', step. cbn [handle_event].
      rewrite fire_live with (1 := Hl). reflexivity. }
    unfold replied.
    rewrite onMessage_unauthenticated
      with (1 := Hloads) (strategy := strategy).
    + now rewrite Hsig.
    + split; [|exact Hvalid]. exists o. auto.
    + rewrite E. exact Hs.
    + rewrite E. reflexivity.
    + now right.
Qed.

Lemma lookup_set_item_same (o : list (string * json)) (k : string)
      (v : json) :
  lookup (set_item o k v) k = Some v.
Proof.
  induction o as [|[k' v'] o IH]; cbn.
  - now rewrite String.eqb_refl.
  - destruct (String.eqb k' k) eqn:E; cbn.
    + now rewrite String.eqb_refl.
    + now rewrite E.
Qed.

Lemma lookup_set_item_other (o : list (string * json)) (k k' : string)
      (v : json) :
  k' <> k -> lookup (set_item o k' v) k = lookup o k.
Proof.
  intros Hne. apply String.eqb_neq in Hne.
  induction o as [|[k0 v0] o IH]; cbn.
  - now rewrite Hne.
  - destruct (String.eqb k0 k') eqn:E; cbn.
    + apply String.eqb_eq in E. subst k0. now rewrite Hne.
    + destruct (String.eqb k0 k); [reflexivity|exact IH].
Qed.

Lemma update_lookup_other (pairs o : list (string * json)) (k : string) :
  Forall (fun kv => fst kv <> k) pairs ->
  lookup (update o pairs) k = lookup o k.
Proof.
  unfold update. intros H. revert o.
  induction H as [|[k' v'] pairs Hk _ IH]; intros o; [reflexivity|].
  cbn [fold_left fst snd]. rewrite IH.
  now apply lookup_set_item_other.
Qed.

Lemma update_app (o l1 l2 : list (string * json)) :
  update o (l1 ++ l2) = update (update o l1) l2.
Proof. unfold update. apply fold_left_app. Qed.

Lemma header_variables_apart (headers : list (string * json)) (k : string) :
  (forall kv, In kv headers -> _header_to_env_var (fst kv) <> k) ->
  lookup (environment headers) k = lookup _fake_env k.
Proof.
  intros Hk. unfold environment. apply update_lookup_other.
  apply Forall_forall. intros kv Hin.
  apply in_map_iff in Hin. destruct Hin as (kv0 & <- & Hin0).
  cbn [fst]. now apply Hk.
Qed.

(** X22. The environment handed to the authenticator.  The seven entries
    of [_fake_env] are there with their values whatever the headers of the
    frame, because every header lands under a name that starts with
    [HTTP_]; each header is found under its variable name with its value,
    unless a later header has the same variable name; and the environment
    holds nothing else. *)
Theorem environment_of_headers (headers : list (string * json)) :
  let env := environment headers in
  (lookup env "REQUEST_METHOD" = Some (JStr "POST") /\
   lookup env "SERVER_NAME" = Some (JStr "zaqar") /\
   lookup env "SERVER_PORT" = Some (JNum 80) /\
   lookup env "SERVER_PROTOCOL" = Some (JStr "HTTP/1.1") /\
   lookup env "PATH_INFO" = Some (JStr "/") /\
   lookup env "SCRIPT_NAME" = Some (JStr EmptyString) /\
   lookup env "wsgi.url_scheme" = Some (JStr "http")) /\
  (forall key, exists name, _header_to_env_var key = "HTTP_" ++ name) /\
  (forall before k v after,
      headers = (before ++ (k, v) :: after)%list ->
      Forall (fun kv => _header_to_env_var (fst kv) <> _header_to_env_var k)
             after ->
      lookup env (_header_to_env_var k) = Some v) /\
  (forall name,
      ~ In name ["REQUEST_METHOD"; "SERVER_NAME"; "SERVER_PORT";
                 "SERVER_PROTOCOL"; "PATH_INFO"; "SCRIPT_NAME";
                 "wsgi.url_scheme"] ->
      (forall kv, In kv headers -> _header_to_env_var (fst kv) <> name) ->
      lookup env name = None).
Proof.
  intros env. subst env.
  split; [|split; [|split]].
  - repeat split;
      (rewrite header_variables_apart;
       [reflexivity
       |intros kv _; unfold _header_to_env_var; discriminate]).
  - intros key. eexists. reflexivity.
  - intros before k v after -> Hafter. unfold environment.
    rewrite map_app. cbn [map fst snd].
    change ((_header_to_env_var k, v)
              :: map (fun kv => (_header_to_env_var (fst kv), snd kv)) after)
      with ([(_header_to_env_var k, v)]
              ++ map (fun kv => (_header_to_env_var (fst kv), snd kv))
                     after)%list.
    rewrite !update_app.
    rewrite update_lookup_other.
    + cbn [update fold_left fst snd]. apply lookup_set_item_same.
    + apply Forall_forall. intros kv Hin.
      apply in_map_iff in Hin. destruct Hin as (kv0 & <- & Hin0).
      cbn [fst]. rewrite Forall_forall in Hafter. now apply Hafter.
  - intros name Hname Hheaders.
    rewrite header_variables_apart by assumption.
    unfold _fake_env. cbn [lookup].
    repeat match goal with
           | |- context [String.eqb ?k name] =>
               let E := fresh "E" in
               destruct (String.eqb k name) eqn:E;
               [apply String.eqb_eq in E; exfalso; apply Hname;
                rewrite <- E; cbn; tauto|]
           end.
    reflexivity.
Qed.

End SessionConduct.

Section SessionScenarios.

Import Messaging Fixture Behaviour.
Local Open Scope string_scope.
Local Open Scope Z_scope.

Lemma invalid_frame_gets_validator_reply_witness :
  replied (handler := closed_handler)
    (response_of 400 (JObj [("error", JStr "Schema validation failed.")])
       (Some queue_list))
    guarded
    (onMessage (handler := closed_handler) (dumps queue_list) false guarded).
Proof.
  apply (@invalid_frame_gets_validator_reply closed_handler libs
           (dumps queue_list) queue_list);
    reflexivity.
Defined.

Lemma rejection_echoes_status_witness :
  replied
    (create_response 401 (JObj [("error", JStr "Authentication failed.")])
       (Some (create_request (JObj [("action", JStr "authenticate")]))))
    guarded (_auth_response "401 Unauthorized" [] guarded).
Proof.
  apply (@rejection_echoes_status handler libs "401 Unauthorized"
           (b "401") [b "Unauthorized"] 401 [] guarded);
    reflexivity || discriminate.
Defined.

Lemma login_starts_authenticator_witness :
  onMessage (dumps login) false guarded
  = Returned tt
      (attempting guarded "keystone"
         (environment [("X-Auth-Token", JStr "t0k3n")])).
Proof.
  apply (@login_starts_authenticator handler libs (dumps login)
           [("action", JStr "authenticate");
            ("headers", JObj [("X-Auth-Token", JStr "t0k3n")])]
           [("X-Auth-Token", JStr "t0k3n")] guarded "keystone");
    try reflexivity.
  right. reflexivity.
Defined.

Lemma login_without_strategy_raises_witness :
  onMessage (dumps login) false open_session = Raised TypeError open_session.
Proof.
  apply (@login_without_strategy_raises handler libs (dumps login)
           [("action", JStr "authenticate");
            ("headers", JObj [("X-Auth-Token", JStr "t0k3n")])]
           open_session);
    reflexivity.
Defined.

Lemma pending_attempt_blocks_authenticator_witness :
  let w := step guarded (Message (dumps login) false) in
  let w' := step w (Message (dumps login) false) in
  self w' = self w /\ auth_calls w' = auth_calls w.
Proof.
  intros w.
  apply (@pending_attempt_blocks_authenticator handler libs (dumps login)
           false w "keystone" {| wraps := "keystone" |});
    reflexivity.
Defined.

Lemma accepted_without_expiry_witness :
  let w' := step guarded (AuthAccepted (JObj [])) in
  w' = marked guarded /\
  _authentified (self w') = true /\
  _loop w' = _loop guarded /\ wire w' = wire guarded /\
  exists e, handle_event (AuthAccepted (JObj [])) guarded = Raised e w' /\
            (e = KeyError \/ e = TypeError \/ e = ValueError).
Proof.
  apply (@accepted_without_expiry handler libs (JObj []) guarded).
  reflexivity.
Defined.

Lemma rejected_login_cannot_retry_witness :
  let w1 := step guarded (Message (dumps login) false) in
  let w2 := step w1 (AuthRejected "401 Unauthorized") in
  auth_calls w1
  = (auth_calls guarded
       ++ [({| wraps := "keystone" |},
            environment [("X-Auth-Token", JStr "t0k3n")])])%list /\
  replied
    (create_response 403 (JObj [("error", JStr "Not authentified.")])
       (Some (create_request login)))
    w2 (onMessage (dumps login) false w2).
Proof.
  apply (@rejected_login_cannot_retry handler libs (dumps login)
           "401 Unauthorized"
           [("action", JStr "authenticate");
            ("headers", JObj [("X-Auth-Token", JStr "t0k3n")])]
           [("X-Auth-Token", JStr "t0k3n")] guarded "keystone");
    reflexivity.
Defined.

Lemma expiry_takes_effect_witness :
  dispatched queue_list logged_in
    (onMessage (dumps queue_list) false logged_in) /\
  let w' := step logged_in (TimerDue 0%nat) in
  replied
    (create_response 403 (JObj [("error", JStr "Not authentified.")])
       (Some (create_request queue_list)))
    w' (onMessage (dumps queue_list) false w').
Proof.
  apply (@expiry_takes_effect handler libs (dumps queue_list) queue_list
           logged_in "keystone" 0%nat);
    try reflexivity.
  exact queue_list_valid.
Defined.

End SessionScenarios.
